(** * Marketing-waste ROIC engine: a shallow embedding of [src/simulation/roic.py]

    The three financial routines of [roic.py] are transcribed as Rocq
    functions and the properties stated by the specification are settled
    against them.

    Number model.  Python floats are idealised as exact rationals ([Q]);
    rounding is outside the model, and equality of computed values is
    [Qeq] (written [==]).  Two events that do not depend on rounding are kept:
    - a Python-level division [a / b] with [b == 0] raises
      [ZeroDivisionError] (modelled by [py_div] in an error monad);
    - a numpy elementwise division by zero does not raise: it yields
      [nan] or an infinity.  A numpy value is an [npfloat]: [Some q] for a
      finite value, [None] for a non-finite one. *)

From Stdlib Require Import QArith Qabs Qpower ZArith List Bool Lia Lqa
  PeanoNat.
Import ListNotations.

Local Open Scope Q_scope.

(** ** Python numerics *)

Module Py.

(** Python exceptions that the modelled code can raise. *)
Inductive exn : Type :=
| ZeroDivisionError.

(** Outcome of a Python computation: a value or a raised exception. *)
Inductive result (A : Type) : Type :=
| Ok (a : A)
| Raise (e : exn).

Arguments Ok {A} a.
Arguments Raise {A} e.

Definition rbind {A B : Type} (m : result A) (f : A -> result B) : result B :=
  match m with
  | Ok a => f a
  | Raise e => Raise e
  end.

Definition rmap {A B : Type} (f : A -> B) (m : result A) : result B :=
  rbind m (fun a => Ok (f a)).

(** [a < b] on floats, as a boolean. *)
Definition Qltb (a b : Q) : bool := negb (Qle_bool b a).

(** The builtin [max(a, b)]: the first argument unless the second is
    strictly greater. *)
Definition pymax (a b : Q) : Q := if Qltb a b then b else a.

(** The builtin [min(a, b)]: the first argument unless the second is
    strictly smaller. *)
Definition pymin (a b : Q) : Q := if Qltb b a then b else a.

(** Python's [a / b] on floats. *)
Definition py_div (a b : Q) : result Q :=
  if Qeq_bool b 0 then Raise ZeroDivisionError else Ok (a / b).

(** A [for] loop that appends one computed value per element. *)
Fixpoint for_append {A B : Type} (body : A -> result B) (xs : list A)
  : result (list B) :=
  match xs with
  | [] => Ok []
  | x :: xs' =>
      rbind (body x) (fun y =>
      rbind (for_append body xs') (fun ys => Ok (y :: ys)))
  end.

End Py.

Import Py.

(** ** numpy *)

Module Np.

(** A numpy float: [Some q] is the finite value [q]; [None] is [nan] or an
    infinity. *)
Abbreviation npfloat := (option Q).

(** [np.linspace(0, 1, num)]: [num] evenly spaced points, both ends
    included when [num >= 2]; the single point [0] when [num = 1]. *)
Definition linspace01 (num : nat) : list Q :=
  match num with
  | O => []
  | S O => [0]
  | S (S _) =>
      map (fun i => inject_Z (Z.of_nat i) / inject_Z (Z.of_nat (num - 1)))
          (seq 0 num)
  end.

(** Running sum with the accumulator made explicit. *)
Fixpoint cumsum_from (acc : Q) (l : list Q) : list Q :=
  match l with
  | [] => []
  | x :: xs => let acc' := acc + x in acc' :: cumsum_from acc' xs
  end.

(** [np.cumsum(l)]: [out[0] = l[0]], [out[i] = out[i-1] + l[i]]. *)
Definition cumsum (l : list Q) : list Q :=
  match l with
  | [] => []
  | x :: xs => x :: cumsum_from x xs
  end.

(** One elementwise quotient of two float arrays: no exception on a zero
    denominator, a non-finite value instead. *)
Definition np_div (a b : Q) : npfloat :=
  if Qeq_bool b 0 then None else Some (a / b).

(** [xs / ys] on two arrays of the same length. *)
Fixpoint np_divide (xs ys : list Q) : list npfloat :=
  match xs, ys with
  | x :: xs', y :: ys' => np_div x y :: np_divide xs' ys'
  | _, _ => []
  end.

Definition sumQ (xs : list Q) : Q := fold_left Qplus xs 0.

(** [np.mean] of a non-empty vector of finite values. *)
Definition mean (xs : list Q) : Q :=
  sumQ xs / inject_Z (Z.of_nat (length xs)).

(** All entries of a column when every one is finite. *)
Fixpoint finite_all (xs : list npfloat) : option (list Q) :=
  match xs with
  | [] => Some []
  | None :: _ => None
  | Some q :: xs' =>
      match finite_all xs' with
      | Some qs => Some (q :: qs)
      | None => None
      end
  end.

(** Column [j] of a two-dimensional array given as a list of rows. *)
Definition column (rows : list (list npfloat)) (j : nat) : list npfloat :=
  map (fun r => nth j r None) rows.

End Np.

Import Np.

(** ** Effective tax rate (roic.py, lines 4-34) *)

Definition true_operating_income_of
  (revenue cogs non_marketing_opex total_marketing_spend waste_percentage : Q)
  : Q :=
  let effective_marketing := total_marketing_spend * (1 - waste_percentage) in
  revenue - cogs - non_marketing_opex - effective_marketing.

(** The guard of line 23: [true] exactly when the early [return 0.0] is
    taken. *)
Definition degenerate_return
  (revenue cogs non_marketing_opex total_marketing_spend waste_percentage : Q)
  : bool :=
  Qle_bool
    (true_operating_income_of revenue cogs non_marketing_opex
       total_marketing_spend waste_percentage) 0.

Definition calculate_effective_tax_rate
  (revenue cogs non_marketing_opex total_marketing_spend
   waste_percentage tax_rate : Q) : result Q :=
  let effective_marketing := total_marketing_spend * (1 - waste_percentage) in
  let wasted_marketing := total_marketing_spend * waste_percentage in
  let true_operating_income :=
    revenue - cogs - non_marketing_opex - effective_marketing in
  if Qle_bool true_operating_income 0 then Ok 0
  else
    let actual_operating_income := true_operating_income - wasted_marketing in
    let actual_nopat := actual_operating_income * (1 - tax_rate) in
    rbind (py_div actual_nopat true_operating_income) (fun quotient =>
    let effective_tax_rate := 1 - quotient in
    Ok effective_tax_rate).

(** ** Single-year ROIC improvement curve (roic.py, lines 36-82) *)

(** Lines 71-80 as a function of the marketing spend in force: the value
    appended to [roic_values], which is also the ROIC "computed directly"
    from that marketing spend. *)
Definition roic_of_marketing
  (revenue cogs non_marketing_opex marketing tax_rate invested_capital : Q)
  : Q :=
  let operating_income := revenue - cogs - non_marketing_opex - marketing in
  if Qle_bool operating_income 0 || Qle_bool invested_capital 0 then 0
  else operating_income * (1 - tax_rate) / invested_capital.

(** Body of the loop of lines 65-80 for one removal fraction; the value
    returned is the one appended to [roic_values]. *)
Definition roic_at
  (revenue cogs non_marketing_opex total_marketing_spend tax_rate
   invested_capital ineffective_spend removal_pct : Q) : result Q :=
  let spend_removed := ineffective_spend * removal_pct in
  let current_marketing_spend := total_marketing_spend - spend_removed in
  let operating_income :=
    revenue - cogs - non_marketing_opex - current_marketing_spend in
  if Qle_bool operating_income 0 || Qle_bool invested_capital 0 then Ok 0
  else
    let nopat := operating_income * (1 - tax_rate) in
    rbind (py_div nopat invested_capital) (fun roic => Ok roic).

Definition calculate_roic_improvement
  (revenue cogs non_marketing_opex total_marketing_spend
   effectiveness_percentage tax_rate invested_capital : Q)
  (removal_points : nat) : result (list Q * list Q) :=
  let removal_percentages := linspace01 removal_points in
  let effective_spend := total_marketing_spend * effectiveness_percentage in
  let ineffective_spend :=
    total_marketing_spend * (1 - effectiveness_percentage) in
  rbind
    (for_append
       (roic_at revenue cogs non_marketing_opex total_marketing_spend
          tax_rate invested_capital ineffective_spend)
       removal_percentages)
    (fun roic_values => Ok (removal_percentages, roic_values)).

(** ** Random source and the simulation monad *)

Module Sim.

(** A computation that may raise and that threads the state [G] of numpy's
    global random generator. *)
Definition M (G A : Type) : Type := G -> result (A * G).

Definition ret {G A : Type} (a : A) : M G A := fun g => Ok (a, g).

Definition bind {G A B : Type} (m : M G A) (f : A -> M G B) : M G B :=
  fun g =>
    match m g with
    | Ok (a, g') => f a g'
    | Raise e => Raise e
    end.

(** A pure fallible computation, run without touching the generator. *)
Definition lift {G A : Type} (r : result A) : M G A :=
  fun g =>
    match r with
    | Ok a => Ok (a, g)
    | Raise e => Raise e
    end.

(** The value of a run, the final generator state dropped. *)
Definition value {G A : Type} (r : result (A * G)) : result A := rmap fst r.

(** [for x in xs: st = body(x, st)]. *)
Fixpoint for_each {G A St : Type} (body : A -> St -> M G St) (xs : list A)
  (st : St) : M G St :=
  match xs with
  | [] => ret st
  | x :: xs' => bind (body x st) (for_each body xs')
  end.

(** [for _ in range(n): out.append(m())]. *)
Fixpoint repeat_append {G A : Type} (n : nat) (m : M G A) : M G (list A) :=
  match n with
  | O => ret []
  | S n' => bind m (fun a => bind (repeat_append n' m) (fun l => ret (a :: l)))
  end.

(** [for x in xs: out[x] = f(x)], the entries kept in iteration order. *)
Fixpoint for_collect {G A B : Type} (f : A -> M G B) (xs : list A)
  : M G (list (A * B)) :=
  match xs with
  | [] => ret []
  | x :: xs' =>
      bind (f x) (fun b => bind (for_collect f xs') (fun l => ret ((x, b) :: l)))
  end.

End Sim.

Import Sim.

Notation "x <- c ;; k" := (bind c (fun x => k))
  (at level 61, c at next level, right associativity).

(** ** Multi-year stochastic projector (roic.py, lines 117-235) *)

(** The variables a trial carries from one year to the next, with the two
    lists it appends to. *)
Record YearlyState : Type := mkYearlyState {
  current_revenue : Q;
  current_marketing : Q;
  current_capital : Q;
  prior_year_roic : Q;
  yearly_nopat : list Q;
  yearly_capital : list Q
}.

Section Projector.

(** State of numpy's global generator and [np.random.normal(loc, scale)],
    which returns a draw and the advanced state. *)
Variable RNG : Type.
Variable normal : Q -> Q -> RNG -> Q * RNG.

(** The float power [x ** 0.7]; irrational in general, kept abstract. *)
Variable pow07 : Q -> Q.

(** The float square root used by [np.std]; kept abstract. *)
Variable sqrt : Q -> Q.

Variables revenue cogs non_marketing_opex total_marketing_spend : Q.
Variables tax_rate invested_capital : Q.
Variables marketing_growth capital_growth : Q.
Variables n_years n_simulations : nat.
Variable base_effectiveness : Q.
Variable removal_scenarios : list Q.

Definition revenue_std : Q := 0.05.
Definition roic_impact : Q := 1.

Definition draw_normal (loc scale : Q) : M RNG Q :=
  fun g => Ok (normal loc scale g).

(** [np.std] of a non-empty vector of finite values. *)
Definition std (xs : list Q) : Q :=
  let arrmean := mean xs in
  sqrt (mean (map (fun x => (x - arrmean) * (x - arrmean)) xs)).

(** [np.mean(a, axis=0)] and [np.std(a, axis=0)] of the array built from a
    list of rows; a column with a non-finite entry has a non-finite
    statistic.  With no row at all numpy returns a scalar [nan] instead of
    a sequence; the empty list stands for it. *)
Definition mean_axis0 (rows : list (list npfloat)) : list npfloat :=
  match rows with
  | [] => []
  | r :: _ =>
      map (fun j => option_map mean (finite_all (column rows j)))
          (seq 0 (length r))
  end.

Definition std_axis0 (rows : list (list npfloat)) : list npfloat :=
  match rows with
  | [] => []
  | r :: _ =>
      map (fun j => option_map std (finite_all (column rows j)))
          (seq 0 (length r))
  end.

Definition initial_state : YearlyState :=
  {| current_revenue := revenue;
     current_marketing := total_marketing_spend;
     current_capital := invested_capital;
     prior_year_roic := 0;
     yearly_nopat := [];
     yearly_capital := [] |}.

(** Lines 169-184: marketing spend of the year, after waste removal. *)
Definition marketing_update (removal_pct : Q) (year : nat) (st : YearlyState)
  : Q :=
  if Nat.eqb year 0 then
    let waste_amount := current_marketing st * (1 - base_effectiveness) in
    let removed_waste := waste_amount * removal_pct in
    current_marketing st - removed_waste
  else
    let roic_adjustment := (prior_year_roic st - 0.05) * roic_impact in
    let adjusted_growth :=
      marketing_growth + pymax (-0.1) (pymin 0.2 roic_adjustment) in
    let base_growth := current_marketing st * adjusted_growth in
    let waste_in_growth := base_growth * (1 - base_effectiveness) in
    let removed_growth_waste := waste_in_growth * removal_pct in
    let actual_growth := base_growth - removed_growth_waste in
    current_marketing st + actual_growth.

(** Line 194: the NOPAT recorded for the year, given its marketing spend. *)
Definition nopat_of (revenue_now marketing_now : Q) : Q :=
  let operating_income :=
    revenue_now - cogs - non_marketing_opex - marketing_now in
  pymax 0 (operating_income * (1 - tax_rate)).

(** Line 201: single-year ROIC, guarded on the capital. *)
Definition current_roic_of (nopat capital : Q) : result Q :=
  if Qltb 0 capital then py_div nopat capital else Ok 0.

(** Body of the year loop, lines 168-220. *)
Definition year_body (removal_pct : Q) (year : nat) (st : YearlyState)
  : M RNG YearlyState :=
  let marketing_now := marketing_update removal_pct year st in
  let nopat := nopat_of (current_revenue st) marketing_now in
  let nopats := yearly_nopat st ++ [nopat] in
  let capitals := yearly_capital st ++ [current_capital st] in
  current_roic <- lift (current_roic_of nopat (current_capital st)) ;;
  if (year <? n_years - 1)%nat then
    ratio <- lift (py_div marketing_now total_marketing_spend) ;;
    let base_revenue_growth := marketing_growth * pow07 ratio in
    let roic_boost := pymax 0 ((current_roic - 0.05) * 0.7) in
    let total_revenue_growth := base_revenue_growth + roic_boost in
    revenue_growth <- draw_normal total_revenue_growth revenue_std ;;
    ret {| current_revenue :=
             current_revenue st * (1 + pymax 0 revenue_growth);
           current_marketing := marketing_now;
           current_capital := current_capital st * (1 + capital_growth);
           prior_year_roic := current_roic;
           yearly_nopat := nopats;
           yearly_capital := capitals |}
  else
    ret {| current_revenue := current_revenue st;
           current_marketing := marketing_now;
           current_capital := current_capital st;
           prior_year_roic := prior_year_roic st;
           yearly_nopat := nopats;
           yearly_capital := capitals |}.

(** The first [k] iterations of the year loop of one trial. *)
Definition run_years (removal_pct : Q) (k : nat) : M RNG YearlyState :=
  for_each (year_body removal_pct) (seq 0 k) initial_state.

(** Lines 223-224: the two running sums of a finished trial. *)
Definition cumulative_nopats (st : YearlyState) : list Q :=
  cumsum (yearly_nopat st).

Definition cumulative_capitals (st : YearlyState) : list Q :=
  cumsum (yearly_capital st).

(** One trial, lines 158-226: the per-year cumulative ROIC. *)
Definition trial (removal_pct : Q) : M RNG (list npfloat) :=
  st <- run_years removal_pct n_years ;;
  ret (np_divide (cumulative_nopats st) (cumulative_capitals st)).

(** One removal scenario, lines 155-233. *)
Definition scenario (removal_pct : Q)
  : M RNG (list nat * list npfloat * list npfloat) :=
  let years := seq 1 n_years in
  all_cumulative_roics <- repeat_append n_simulations (trial removal_pct) ;;
  let mean_roics := mean_axis0 all_cumulative_roics in
  let std_roics := std_axis0 all_cumulative_roics in
  ret (years, mean_roics, std_roics).

(** The result dictionary as its entries in insertion order; a removal
    fraction listed twice is simulated twice and the later entry is the
    one a dictionary keeps. *)
Definition simulate_multi_year_cumulative_roic
  : M RNG (list (Q * (list nat * list npfloat * list npfloat))) :=
  for_collect scenario removal_scenarios.

End Projector.

(** ** Predicates used by the statements *)

(** A computation whose value does not depend on the state the generator
    is in when it starts. *)
Definition state_free {G A : Type} (m : M G A) : Prop :=
  forall g1 g2, value (m g1) = value (m g2).

(** A finite, non-negative numpy value. *)
Definition nonneg_finite (x : option Q) : Prop :=
  exists q, x = Some q /\ 0 <= q.

(** Recorded NOPATs are non-negative, recorded capitals positive, and the
    capital carried to the next year is positive. *)
Definition records_sound (st : YearlyState) : Prop :=
  Forall (Qle 0) (yearly_nopat st)
  /\ Forall (Qlt 0) (yearly_capital st)
  /\ 0 < current_capital st.

(** The three components of one entry of the result dictionary. *)
Definition years_of (entry : Q * (list nat * list npfloat * list npfloat))
  : list nat := fst (fst (snd entry)).

Definition mean_roic_of (entry : Q * (list nat * list npfloat * list npfloat))
  : list npfloat := snd (fst (snd entry)).

Definition std_roic_of (entry : Q * (list nat * list npfloat * list npfloat))
  : list npfloat := snd (snd entry).

(** ** Stand-ins for running the model

    Concrete values for the abstract numpy functions, used only to run the
    projector on explicit inputs. *)

(** The deterministic random source of the determinism check: it returns
    exactly the mean, and the state counts the draws. *)
Definition mean_source (loc scale : Q) (g : nat) : Q * nat := (loc, S g).

(** First-order expansion of [x ** 0.7] at 1. *)
Definition pow07_tangent (x : Q) : Q := 0.3 + 0.7 * x.

(** Square root rounded down to a multiple of the inverse denominator. *)
Definition sqrt_floor (q : Q) : Q := Z.sqrt (Qnum q * QDen q) # Qden q.

(** ** Effectiveness scenarios (roic.py, lines 84-115) *)

(** The keys of the dictionary of line 100, in insertion order. *)
Definition effectiveness_scenarios : list Q := [0.25; 0.50; 0.75].

(** The result dictionary as its entries in insertion order. *)
Definition simulate_roic_improvement_scenarios
  (revenue cogs non_marketing_opex total_marketing_spend tax_rate
   invested_capital : Q) (removal_points : nat)
  : result (list (Q * (list Q * list Q))) :=
  for_append
    (fun effectiveness =>
       rbind
         (calculate_roic_improvement revenue cogs non_marketing_opex
            total_marketing_spend effectiveness tax_rate invested_capital
            removal_points)
         (fun curve =>
            let '(removal_pcts, roic_vals) := curve in
            Ok (effectiveness, (removal_pcts, roic_vals))))
    effectiveness_scenarios.

(** ** The effective-tax-rate sweep of the dashboard (app.py, lines 422-435) *)



(** ** A random source that counts its draws *)

(** A generator whose state is the number of draws made so far; the value
    drawn is left arbitrary. *)
Definition counting_source (sample : Q -> Q -> nat -> Q) (loc scale : Q)
  (g : nat) : Q * nat :=
  (sample loc scale g, S g).

(** ** Predicates on the state of a trial *)

(** After [k] iterations the capitals recorded so far are the compounded
    initial capital, and so is the capital carried into year [k] while
    that year is not past the last one. *)
Definition capital_compounded (invested_capital capital_growth : Q)
  (n_years k : nat) (st : YearlyState) : Prop :=
  length (yearly_capital st) = k
  /\ (forall j, (j < k)%nat ->
        nth j (yearly_capital st) 0
        == invested_capital * (1 + capital_growth) ^ Z.of_nat j)
  /\ ((k <= n_years - 1)%nat ->
      current_capital st
      == invested_capital * (1 + capital_growth) ^ Z.of_nat k).

(** * Properties *)

Lemma Qltb_true a b : Qltb a b = true <-> a < b.
Proof.
  unfold Qltb. rewrite negb_true_iff. split; intro H.
  - apply Qnot_le_lt. intro L. apply Qle_bool_iff in L. congruence.
  - destruct (Qle_bool b a) eqn:E; [|reflexivity].
    apply Qle_bool_iff in E. lra.
Qed.

Lemma Qltb_false a b : Qltb a b = false <-> b <= a.
Proof.
  unfold Qltb. rewrite negb_false_iff. apply Qle_bool_iff.
Qed.

Lemma Qle_bool_false a b : Qle_bool a b = false <-> b < a.
Proof.
  split; intro H.
  - apply Qnot_le_lt. intro L. apply Qle_bool_iff in L. congruence.
  - destruct (Qle_bool a b) eqn:E; [|reflexivity].
    apply Qle_bool_iff in E. lra.
Qed.

Lemma Qeq_bool_false a b : Qeq_bool a b = false <-> ~ a == b.
Proof.
  split; intro H.
  - now apply Qeq_bool_neq.
  - destruct (Qeq_bool a b) eqn:E; [|reflexivity].
    apply Qeq_bool_iff in E. contradiction.
Qed.

(** Turn every boolean comparison among the hypotheses into its
    proposition. *)
Ltac qprop :=
  repeat match goal with
  | H : Qle_bool _ _ = true |- _ => apply Qle_bool_iff in H
  | H : Qle_bool _ _ = false |- _ => apply Qle_bool_false in H
  | H : Qltb _ _ = true |- _ => apply Qltb_true in H
  | H : Qltb _ _ = false |- _ => apply Qltb_false in H
  | H : Qeq_bool _ _ = true |- _ => apply Qeq_bool_iff in H
  | H : Qeq_bool _ _ = false |- _ => apply Qeq_bool_false in H
  | H : _ || _ = true |- _ => apply orb_true_iff in H; destruct H
  | H : _ || _ = false |- _ => apply orb_false_iff in H; destruct H
  end.

Lemma py_div_ok a b : ~ b == 0 -> py_div a b = Ok (a / b).
Proof.
  intro H. unfold py_div. apply Qeq_bool_false in H. now rewrite H.
Qed.

Lemma pymax_lb a b : a <= pymax a b.
Proof. unfold pymax. destruct (Qltb a b) eqn:E; qprop; lra. Qed.

Lemma pymax_ub a b : b <= pymax a b.
Proof. unfold pymax. destruct (Qltb a b) eqn:E; qprop; lra. Qed.

Lemma pymin_ub a b : pymin a b <= a.
Proof. unfold pymin. destruct (Qltb b a) eqn:E; qprop; lra. Qed.

Lemma Qdiv_nonneg a b : 0 <= a -> 0 < b -> 0 <= a / b.
Proof.
  intros Ha Hb. unfold Qdiv. apply Qmult_le_0_compat; [assumption|].
  apply Qlt_le_weak, Qinv_lt_0_compat, Hb.
Qed.

Lemma Qdiv_le_mono a b c : 0 < c -> a <= b -> a / c <= b / c.
Proof.
  intros Hc Hab. unfold Qdiv. apply Qmult_le_compat_r; [assumption|].
  apply Qlt_le_weak, Qinv_lt_0_compat, Hc.
Qed.

Section RoicPoint.

Variables revenue cogs non_marketing_opex total_marketing_spend : Q.
Variables tax_rate invested_capital : Q.

Lemma roic_at_value ineffective_spend r :
  roic_at revenue cogs non_marketing_opex total_marketing_spend tax_rate
    invested_capital ineffective_spend r
  = Ok (roic_of_marketing revenue cogs non_marketing_opex
          (total_marketing_spend - ineffective_spend * r)
          tax_rate invested_capital).
Proof.
  unfold roic_at, roic_of_marketing.
  destruct (Qle_bool _ 0 || Qle_bool invested_capital 0) eqn:G;
    [reflexivity|].
  qprop. rewrite py_div_ok by lra. reflexivity.
Qed.

Lemma roic_of_marketing_nonneg m :
  tax_rate <= 1 ->
  0 <= roic_of_marketing revenue cogs non_marketing_opex m tax_rate
         invested_capital.
Proof.
  intro Ht. unfold roic_of_marketing.
  destruct (Qle_bool _ 0 || Qle_bool invested_capital 0) eqn:G; [lra|].
  qprop. apply Qdiv_nonneg; [nra | assumption].
Qed.

Lemma roic_of_marketing_antitone m1 m2 :
  tax_rate <= 1 -> m2 <= m1 ->
  roic_of_marketing revenue cogs non_marketing_opex m1 tax_rate
    invested_capital
  <= roic_of_marketing revenue cogs non_marketing_opex m2 tax_rate
       invested_capital.
Proof.
  intros Ht Hm. unfold roic_of_marketing.
  destruct (Qle_bool (_ - m1) 0 || Qle_bool invested_capital 0) eqn:G1;
    destruct (Qle_bool (_ - m2) 0 || Qle_bool invested_capital 0) eqn:G2;
    qprop.
    all: try lra.
  - apply Qdiv_nonneg; [nra | assumption].
  - apply Qdiv_le_mono; [assumption|].
    apply Qmult_le_compat_r; lra.
Qed.

Lemma roic_of_marketing_compat m1 m2 :
  m1 == m2 ->
  roic_of_marketing revenue cogs non_marketing_opex m1 tax_rate
    invested_capital
  == roic_of_marketing revenue cogs non_marketing_opex m2 tax_rate
       invested_capital.
Proof.
  intro Hm. unfold roic_of_marketing.
  destruct (Qle_bool (_ - m1) 0 || Qle_bool invested_capital 0) eqn:G1;
    destruct (Qle_bool (_ - m2) 0 || Qle_bool invested_capital 0) eqn:G2;
    qprop.
    all: try lra.
  now rewrite Hm.
Qed.

End RoicPoint.

(** *** The sweep *)

Lemma linspace01_length n : length (linspace01 n) = n.
Proof.
  destruct n as [|[|n]]; try reflexivity.
  unfold linspace01. now rewrite length_map, length_seq.
Qed.

Lemma linspace01_nth n i :
  (2 <= n)%nat -> (i < n)%nat ->
  nth i (linspace01 n) 0
  = inject_Z (Z.of_nat i) / inject_Z (Z.of_nat (n - 1)).
Proof.
  intros Hn Hi. destruct n as [|[|n]]; try lia.
  unfold linspace01.
  set (f := fun k => inject_Z (Z.of_nat k) / inject_Z (Z.of_nat (S (S n) - 1))).
  rewrite (nth_indep _ 0 (f 0%nat)) by now rewrite length_map, length_seq.
  rewrite map_nth, seq_nth by assumption. reflexivity.
Qed.

Lemma inject_nat_pos k : (0 < k)%nat -> 0 < inject_Z (Z.of_nat k).
Proof.
  intro H. change 0 with (inject_Z 0). rewrite <- Zlt_Qlt. lia.
Qed.

Lemma linspace01_first n : (1 <= n)%nat -> nth 0 (linspace01 n) 0 == 0.
Proof.
  intro Hn. destruct n as [|[|n]]; [lia | reflexivity | reflexivity].
Qed.

Lemma linspace01_last n : (2 <= n)%nat -> nth (n - 1) (linspace01 n) 0 == 1.
Proof.
  intro Hn. rewrite linspace01_nth by lia.
  field. intro E. pose proof (inject_nat_pos (n - 1) ltac:(lia)). lra.
Qed.

Lemma linspace01_mono n i j :
  (i <= j < n)%nat -> nth i (linspace01 n) 0 <= nth j (linspace01 n) 0.
Proof.
  intros [Hij Hj]. destruct (Nat.eq_dec i j) as [->|Hne]; [lra|].
  rewrite !linspace01_nth by lia.
  apply Qdiv_le_mono; [apply inject_nat_pos; lia|].
  rewrite <- Zle_Qle. lia.
Qed.

Lemma linspace01_range n r : In r (linspace01 n) -> 0 <= r <= 1.
Proof.
  intro H. apply (In_nth _ _ 0) in H. destruct H as (i & Hi & <-).
  rewrite linspace01_length in Hi.
  destruct (le_lt_dec 2 n) as [Hn|Hn].
  - pose proof (linspace01_first n ltac:(lia)) as H0.
    pose proof (linspace01_last n Hn) as H1.
    pose proof (linspace01_mono n 0 i ltac:(lia)).
    pose proof (linspace01_mono n i (n - 1) ltac:(lia)).
    lra.
  - assert (n = 1%nat) as -> by lia. assert (i = 0%nat) as -> by lia.
    simpl. lra.
Qed.

(** *** Loops that append *)

Lemma for_append_total {A B : Type} (body : A -> result B) (f : A -> B) xs :
  (forall x, In x xs -> body x = Ok (f x)) ->
  for_append body xs = Ok (map f xs).
Proof.
  induction xs as [|x xs IH]; intro H; simpl; [reflexivity|].
  rewrite (H x) by now left. simpl.
  rewrite IH by (intros; apply H; now right). reflexivity.
Qed.

Lemma nth_map_default {A B : Type} (f : A -> B) l i d e :
  (i < length l)%nat -> nth i (map f l) e = f (nth i l d).
Proof.
  intro H. rewrite (nth_indep _ e (f d)) by now rewrite length_map.
  apply map_nth.
Qed.

Section RoicCurve.

Variables revenue cogs non_marketing_opex total_marketing_spend : Q.
Variable effectiveness_percentage : Q.
Variables tax_rate invested_capital : Q.

(** Marketing spend left after removing the fraction [r] of the
    ineffective spend (lines 63, 67, 68). *)
Let spend_after (r : Q) : Q :=
  total_marketing_spend
  - total_marketing_spend * (1 - effectiveness_percentage) * r.

Let curve_value (r : Q) : Q :=
  roic_of_marketing revenue cogs non_marketing_opex (spend_after r) tax_rate
    invested_capital.

Lemma calculate_roic_improvement_value removal_points :
  calculate_roic_improvement revenue cogs non_marketing_opex
    total_marketing_spend effectiveness_percentage tax_rate invested_capital
    removal_points
  = Ok (linspace01 removal_points, map curve_value (linspace01 removal_points)).
Proof.
  unfold calculate_roic_improvement.
  rewrite (for_append_total _ curve_value); [reflexivity|].
  intros r _. apply roic_at_value.
Qed.

Lemma spend_after_antitone r1 r2 :
  0 <= total_marketing_spend -> effectiveness_percentage <= 1 ->
  r1 <= r2 -> spend_after r2 <= spend_after r1.
Proof.
  intros Hm He Hr. unfold spend_after.
  assert (0 <= total_marketing_spend * (1 - effectiveness_percentage))
    by (apply Qmult_le_0_compat; lra).
  assert (total_marketing_spend * (1 - effectiveness_percentage) * r1
          <= total_marketing_spend * (1 - effectiveness_percentage) * r2).
  { rewrite !(Qmult_comm (total_marketing_spend * _)).
    apply Qmult_le_compat_r; assumption. }
  lra.
Qed.

Lemma curve_value_mono r1 r2 :
  0 <= total_marketing_spend -> effectiveness_percentage <= 1 ->
  tax_rate <= 1 -> r1 <= r2 -> curve_value r1 <= curve_value r2.
Proof.
  intros Hm He Ht Hr. apply roic_of_marketing_antitone; [assumption|].
  now apply spend_after_antitone.
Qed.

End RoicCurve.

(** ** Claims on the single-year analyzer *)

(** C2. For every input and every removal fraction of the sweep,
    [calculate_roic_improvement] returns (it never raises) and the value at
    that fraction is 0 when operating income or invested capital is not
    positive and [operating_income * (1 - tax_rate) / invested_capital]
    otherwise, with the operating income computed from the marketing spend
    left after removal; with a tax rate of at most 1 the value is never
    negative. *)
Theorem C2_roic_point_value :
  forall revenue cogs non_marketing_opex total_marketing_spend
         effectiveness tax_rate invested_capital (removal_points : nat),
  exists roic_values,
    calculate_roic_improvement revenue cogs non_marketing_opex
      total_marketing_spend effectiveness tax_rate invested_capital
      removal_points
    = Ok (linspace01 removal_points, roic_values)
    /\ length roic_values = removal_points
    /\ forall i, (i < removal_points)%nat ->
         let removal_fraction := nth i (linspace01 removal_points) 0 in
         let roic := nth i roic_values 0 in
         let operating_income :=
           revenue - cogs - non_marketing_opex
           - (total_marketing_spend
              - total_marketing_spend * (1 - effectiveness)
                * removal_fraction) in
         (operating_income <= 0 \/ invested_capital <= 0 -> roic == 0)
         /\ (~ (operating_income <= 0 \/ invested_capital <= 0) ->
             roic == operating_income * (1 - tax_rate) / invested_capital)
         /\ (tax_rate <= 1 -> 0 <= roic).
Proof.
  intros. eexists. split; [apply calculate_roic_improvement_value|].
  split; [now rewrite length_map, linspace01_length|].
  intros i Hi. cbv zeta.
  rewrite (nth_map_default _ _ _ 0) by now rewrite linspace01_length.
  set (r := nth i (linspace01 removal_points) 0).
  split; [|split].
  - intro H. unfold roic_of_marketing.
    destruct (Qle_bool _ 0 || Qle_bool invested_capital 0) eqn:G;
      [reflexivity|].
    qprop. destruct H; lra.
  - intro H. unfold roic_of_marketing.
    destruct (Qle_bool _ 0 || Qle_bool invested_capital 0) eqn:G;
      [|reflexivity].
    exfalso. apply H. qprop; [left | right]; assumption.
  - apply roic_of_marketing_nonneg.
Qed.

Lemma C2_roic_point_value_witness :
  exists roic_values,
    calculate_roic_improvement 100 40 20 30 0.5 0.25 70 3
    = Ok (linspace01 3, roic_values)
    /\ 0 <= nth 2 roic_values 0.
Proof.
  destruct (C2_roic_point_value 100 40 20 30 0.5 0.25 70 3)
    as (vs & E & _ & P).
  exists vs. split; [exact E|].
  apply (P 2%nat); [lia | discriminate].
Defined.

(** C4 (amended). At removal fraction 0 the ROIC value is the one computed
    from the unmodified marketing spend, and at removal fraction 1 the one
    computed from [total_marketing_spend * e]; with at least two sweep
    points both fractions are in the returned sweep, as its first and last
    entries. *)
Theorem C4_sweep_endpoints :
  forall revenue cogs non_marketing_opex total_marketing_spend
         e tax_rate invested_capital,
  let direct m :=
    roic_of_marketing revenue cogs non_marketing_opex m tax_rate
      invested_capital in
  let point :=
    roic_at revenue cogs non_marketing_opex total_marketing_spend tax_rate
      invested_capital (total_marketing_spend * (1 - e)) in
  (exists v0, point 0 = Ok v0 /\ v0 == direct total_marketing_spend)
  /\ (exists v1, point 1 = Ok v1 /\ v1 == direct (total_marketing_spend * e))
  /\ forall removal_points, (2 <= removal_points)%nat ->
       exists roic_values,
         calculate_roic_improvement revenue cogs non_marketing_opex
           total_marketing_spend e tax_rate invested_capital removal_points
         = Ok (linspace01 removal_points, roic_values)
         /\ nth 0 (linspace01 removal_points) 0 == 0
         /\ nth (removal_points - 1) (linspace01 removal_points) 0 == 1
         /\ nth 0 roic_values 0 == direct total_marketing_spend
         /\ nth (removal_points - 1) roic_values 0
            == direct (total_marketing_spend * e).
Proof.
  intros. subst direct point. cbv beta.
  assert (R0 : forall r, r == 0 ->
            total_marketing_spend - total_marketing_spend * (1 - e) * r
            == total_marketing_spend) by (intros r ->; ring).
  assert (R1 : forall r, r == 1 ->
            total_marketing_spend - total_marketing_spend * (1 - e) * r
            == total_marketing_spend * e) by (intros r ->; ring).
  split; [|split].
  - eexists. split; [apply roic_at_value|].
    apply roic_of_marketing_compat, R0. reflexivity.
  - eexists. split; [apply roic_at_value|].
    apply roic_of_marketing_compat, R1. reflexivity.
  - intros n Hn. eexists. split; [apply calculate_roic_improvement_value|].
    pose proof (linspace01_first n ltac:(lia)) as F.
    pose proof (linspace01_last n Hn) as L.
    repeat split; try assumption.
    + rewrite (nth_map_default _ _ _ 0) by (rewrite linspace01_length; lia).
      apply roic_of_marketing_compat, R0, F.
    + rewrite (nth_map_default _ _ _ 0) by (rewrite linspace01_length; lia).
      apply roic_of_marketing_compat, R1, L.
Qed.

Lemma C4_sweep_endpoints_witness :
  exists roic_values,
    calculate_roic_improvement 100 40 20 30 0.5 0.25 70 50
    = Ok (linspace01 50, roic_values)
    /\ nth 49 (linspace01 50) 0 == 1
    /\ nth 49 roic_values 0 == 18.75 / 70.
Proof.
  destruct (C4_sweep_endpoints 100 40 20 30 0.5 0.25 70) as (_ & _ & P).
  destruct (P 50%nat ltac:(lia)) as (vs & E & _ & L & _ & V).
  exists vs. split; [exact E|]. split; [exact L|].
  rewrite V. reflexivity.
Defined.

(** C4, as stated, fails: with a single sweep point the returned removal
    percentages are [[0]], so the end point 1 is not among them. *)
Lemma C4_counterexample :
  exists roic_values,
    calculate_roic_improvement 100 40 20 30 0.5 0.25 70 1
    = Ok ([0], roic_values)
    /\ forall p, In p [0] -> ~ p == 1.
Proof.
  eexists. split; [reflexivity|].
  intros p [<-|[]]. discriminate.
Qed.

(** *** Effective tax rate: the two branches *)

Lemma effective_tax_rate_degenerate_value
  revenue cogs non_marketing_opex total_marketing_spend waste_percentage
  tax_rate :
  revenue - cogs - non_marketing_opex
  - total_marketing_spend * (1 - waste_percentage) <= 0 ->
  calculate_effective_tax_rate revenue cogs non_marketing_opex
    total_marketing_spend waste_percentage tax_rate = Ok 0.
Proof.
  intro H. unfold calculate_effective_tax_rate.
  apply Qle_bool_iff in H. now rewrite H.
Qed.

Lemma effective_tax_rate_general_value
  revenue cogs non_marketing_opex total_marketing_spend waste_percentage
  tax_rate :
  let true_operating_income :=
    revenue - cogs - non_marketing_opex
    - total_marketing_spend * (1 - waste_percentage) in
  0 < true_operating_income ->
  calculate_effective_tax_rate revenue cogs non_marketing_opex
    total_marketing_spend waste_percentage tax_rate
  = Ok (1 - (true_operating_income
             - total_marketing_spend * waste_percentage)
            * (1 - tax_rate) / true_operating_income).
Proof.
  intros toi H. subst toi. unfold calculate_effective_tax_rate.
  apply Qle_bool_false in H. rewrite H.
  apply Qle_bool_false in H. rewrite py_div_ok by lra. reflexivity.
Qed.

(** C5. With non-negative marketing spend, a tax rate of at most 1 and an
    effectiveness fraction below 1, whenever invested capital is positive
    and operating income stays positive over the sweep, the returned ROIC
    values are non-decreasing along the (non-decreasing) removal
    fractions. *)
Theorem C5_roic_monotone_in_removal :
  forall revenue cogs non_marketing_opex total_marketing_spend
         e tax_rate invested_capital (removal_points : nat),
  0 <= total_marketing_spend ->
  tax_rate <= 1 ->
  e < 1 ->
  0 < invested_capital ->
  (forall r, In r (linspace01 removal_points) ->
     0 < revenue - cogs - non_marketing_opex
         - (total_marketing_spend - total_marketing_spend * (1 - e) * r)) ->
  exists roic_values,
    calculate_roic_improvement revenue cogs non_marketing_opex
      total_marketing_spend e tax_rate invested_capital removal_points
    = Ok (linspace01 removal_points, roic_values)
    /\ forall i j, (i <= j < removal_points)%nat ->
         nth i (linspace01 removal_points) 0
         <= nth j (linspace01 removal_points) 0
         /\ nth i roic_values 0 <= nth j roic_values 0.
Proof.
  intros until removal_points. intros Hm Ht He _ _.
  eexists. split; [apply calculate_roic_improvement_value|].
  intros i j Hij.
  pose proof (linspace01_mono removal_points i j Hij) as Hr.
  split; [exact Hr|].
  rewrite !(nth_map_default _ _ _ 0) by (rewrite linspace01_length; lia).
  apply roic_of_marketing_antitone; [assumption|].
  apply spend_after_antitone; [assumption | lra | assumption].
Qed.

Lemma C5_roic_monotone_in_removal_witness :
  exists roic_values,
    calculate_roic_improvement 100 40 20 30 0.5 0.25 70 3
    = Ok (linspace01 3, roic_values)
    /\ nth 0 roic_values 0 <= nth 2 roic_values 0.
Proof.
  destruct (C5_roic_monotone_in_removal 100 40 20 30 0.5 0.25 70 3)
    as (vs & E & P).
  - discriminate.
  - discriminate.
  - reflexivity.
  - reflexivity.
  - simpl. intros r [<-|[<-|[<-|[]]]]; reflexivity.
  - exists vs. split; [exact E|]. apply (P 0%nat 2%nat). lia.
Defined.

(** C6. [calculate_effective_tax_rate] takes its early return exactly when
    the waste-free operating income is at most 0, and then returns exactly
    0; otherwise it returns the value of the general formula. *)
Theorem C6_effective_tax_rate_degenerate :
  forall revenue cogs non_marketing_opex total_marketing_spend
         waste_percentage tax_rate,
  let true_operating_income :=
    revenue - cogs - non_marketing_opex
    - total_marketing_spend * (1 - waste_percentage) in
  (degenerate_return revenue cogs non_marketing_opex total_marketing_spend
     waste_percentage = true <-> true_operating_income <= 0)
  /\ (true_operating_income <= 0 ->
      calculate_effective_tax_rate revenue cogs non_marketing_opex
        total_marketing_spend waste_percentage tax_rate = Ok 0)
  /\ (0 < true_operating_income ->
      calculate_effective_tax_rate revenue cogs non_marketing_opex
        total_marketing_spend waste_percentage tax_rate
      = Ok (1 - (true_operating_income
                 - total_marketing_spend * waste_percentage)
                * (1 - tax_rate) / true_operating_income)).
Proof.
  intros. subst true_operating_income.
  split; [|split].
  - unfold degenerate_return, true_operating_income_of. apply Qle_bool_iff.
  - apply effective_tax_rate_degenerate_value.
  - apply effective_tax_rate_general_value.
Qed.

Lemma C6_effective_tax_rate_degenerate_witness :
  calculate_effective_tax_rate 50 40 20 30 0.5 0.25 = Ok 0.
Proof.
  apply (C6_effective_tax_rate_degenerate 50 40 20 30 0.5 0.25).
  discriminate.
Defined.

(** C7 (amended). With no waste, [calculate_effective_tax_rate] returns the
    nominal tax rate whenever revenue exceeds the costs
    ([revenue - cogs - non_marketing_opex - total_marketing_spend > 0]);
    otherwise it returns 0. *)
Theorem C7_no_waste_nominal_rate :
  forall revenue cogs non_marketing_opex total_marketing_spend tax_rate,
  let income := revenue - cogs - non_marketing_opex - total_marketing_spend in
  (0 < income ->
   exists rate,
     calculate_effective_tax_rate revenue cogs non_marketing_opex
       total_marketing_spend 0 tax_rate = Ok rate
     /\ rate == tax_rate)
  /\ (income <= 0 ->
      calculate_effective_tax_rate revenue cogs non_marketing_opex
        total_marketing_spend 0 tax_rate = Ok 0).
Proof.
  intros. subst income. split; intro H.
  - eexists. split.
    + apply effective_tax_rate_general_value. lra.
    + field. lra.
  - apply effective_tax_rate_degenerate_value. lra.
Qed.

Lemma C7_no_waste_nominal_rate_witness :
  exists rate,
    calculate_effective_tax_rate 100 40 20 30 0 0.25 = Ok rate
    /\ rate == 0.25.
Proof.
  apply (C7_no_waste_nominal_rate 100 40 20 30 0.25). reflexivity.
Defined.

(** C7, as stated, fails: when the costs exceed revenue the early return
    gives 0 and not the nominal rate of 25%. *)
Lemma C7_counterexample :
  calculate_effective_tax_rate 50 40 20 30 0 0.25 = Ok 0 /\ ~ 0 == 0.25.
Proof.
  split; [reflexivity | discriminate].
Qed.


(** ** The simulation monad *)

Lemma bind_ok_inv {G A B : Type} (m : M G A) (f : A -> M G B) g b g' :
  bind m f g = Ok (b, g') ->
  exists a g1, m g = Ok (a, g1) /\ f a g1 = Ok (b, g').
Proof.
  unfold bind. destruct (m g) as [[a g1]|e]; [|discriminate].
  intro H. now exists a, g1.
Qed.

Lemma bind_ok {G A B : Type} (m : M G A) (f : A -> M G B) g a g1 :
  m g = Ok (a, g1) -> bind m f g = f a g1.
Proof. intro H. unfold bind. now rewrite H. Qed.

Lemma for_each_app {G A St : Type} (body : A -> St -> M G St) xs ys st g :
  for_each body (xs ++ ys) st g
  = bind (for_each body xs st) (for_each body ys) g.
Proof.
  revert st g. induction xs as [|x xs IH]; intros st g; simpl.
  - reflexivity.
  - unfold bind in *. destruct (body x st g) as [[st1 g1]|e];
      [apply IH | reflexivity].
Qed.

Lemma for_each_invariant {G A St : Type} (body : A -> St -> M G St)
  (I : St -> Prop) xs :
  (forall x st g st' g', In x xs -> I st -> body x st g = Ok (st', g') ->
     I st') ->
  forall st g st' g',
    I st -> for_each body xs st g = Ok (st', g') -> I st'.
Proof.
  induction xs as [|x xs IH]; intros Hb st g st' g' Hi H; simpl in H.
  - inversion H. now subst.
  - apply bind_ok_inv in H. destruct H as (st1 & g1 & H1 & H2).
    apply (IH (fun y s h s' h' Hy => Hb y s h s' h' (or_intror Hy))
             st1 g1 st' g'); [|assumption].
    apply (Hb x st g st1 g1); [now left | assumption | assumption].
Qed.

Lemma for_each_total {G A St : Type} (body : A -> St -> M G St) xs :
  (forall x st g, In x xs -> exists st' g', body x st g = Ok (st', g')) ->
  forall st g, exists st' g', for_each body xs st g = Ok (st', g').
Proof.
  induction xs as [|x xs IH]; intros Hb st g; simpl.
  - now exists st, g.
  - destruct (Hb x st g (or_introl eq_refl)) as (st1 & g1 & H1).
    rewrite (bind_ok _ _ _ _ _ H1).
    apply IH. intros y s h Hy. apply Hb. now right.
Qed.

Lemma repeat_append_all {G A : Type} (m : M G A) (P : A -> Prop) n :
  (forall g a g', m g = Ok (a, g') -> P a) ->
  forall g l g', repeat_append n m g = Ok (l, g') ->
    length l = n /\ Forall P l.
Proof.
  intro Hm. induction n as [|n IH]; intros g l g' H; simpl in H.
  - inversion H. split; [reflexivity | constructor].
  - apply bind_ok_inv in H. destruct H as (a & g1 & H1 & H).
    apply bind_ok_inv in H. destruct H as (l1 & g2 & H2 & H).
    inversion H; subst. destruct (IH _ _ _ H2) as [L F].
    split; [simpl; now rewrite L|].
    constructor; [now apply (Hm g a g1) | assumption].
Qed.

Lemma repeat_append_total {G A : Type} (m : M G A) n :
  (forall g, exists a g', m g = Ok (a, g')) ->
  forall g, exists l g', repeat_append n m g = Ok (l, g').
Proof.
  intro Hm. induction n as [|n IH]; intro g; simpl.
  - now exists [], g.
  - destruct (Hm g) as (a & g1 & H1). rewrite (bind_ok _ _ _ _ _ H1).
    destruct (IH g1) as (l & g2 & H2). rewrite (bind_ok _ _ _ _ _ H2).
    now exists (a :: l), g2.
Qed.

Lemma for_collect_all {G A B : Type} (f : A -> M G B) (P : A -> B -> Prop) xs :
  (forall x g b g', f x g = Ok (b, g') -> P x b) ->
  forall g l g', for_collect f xs g = Ok (l, g') ->
    map fst l = xs /\ Forall (fun xb => P (fst xb) (snd xb)) l.
Proof.
  intro Hf. induction xs as [|x xs IH]; intros g l g' H; simpl in H.
  - inversion H. split; [reflexivity | constructor].
  - apply bind_ok_inv in H. destruct H as (b & g1 & H1 & H).
    apply bind_ok_inv in H. destruct H as (l1 & g2 & H2 & H).
    inversion H; subst. destruct (IH _ _ _ H2) as [L F].
    split; [simpl; now rewrite L|].
    constructor; [now apply (Hf x g b g1) | assumption].
Qed.

Lemma for_collect_total {G A B : Type} (f : A -> M G B) xs :
  (forall x g, exists b g', f x g = Ok (b, g')) ->
  forall g, exists l g', for_collect f xs g = Ok (l, g').
Proof.
  intro Hf. induction xs as [|x xs IH]; intro g; simpl.
  - now exists [], g.
  - destruct (Hf x g) as (b & g1 & H1). rewrite (bind_ok _ _ _ _ _ H1).
    destruct (IH g1) as (l & g2 & H2). rewrite (bind_ok _ _ _ _ _ H2).
    now exists ((x, b) :: l), g2.
Qed.

(** *** Computations whose value does not depend on the generator state *)


Lemma state_free_ret {G A : Type} (a : A) : state_free (@ret G A a).
Proof. intros g1 g2. reflexivity. Qed.

Lemma state_free_lift {G A : Type} (r : result A) : state_free (@lift G A r).
Proof. intros g1 g2. unfold lift. now destruct r. Qed.

Lemma state_free_bind {G A B : Type} (m : M G A) (f : A -> M G B) :
  state_free m -> (forall a, state_free (f a)) -> state_free (bind m f).
Proof.
  intros Hm Hf g1 g2. specialize (Hm g1 g2). unfold bind.
  destruct (m g1) as [[a1 h1]|e1], (m g2) as [[a2 h2]|e2];
    cbn in Hm; try discriminate.
  - inversion Hm; subst. apply Hf.
  - inversion Hm; subst. reflexivity.
Qed.

Lemma state_free_for_each {G A St : Type} (body : A -> St -> M G St) xs :
  (forall x st, state_free (body x st)) ->
  forall st, state_free (for_each body xs st).
Proof.
  intro Hb. induction xs as [|x xs IH]; intro st; simpl.
  - apply state_free_ret.
  - apply state_free_bind; [apply Hb | exact IH].
Qed.

Lemma state_free_repeat_append {G A : Type} (m : M G A) n :
  state_free m -> state_free (repeat_append n m).
Proof.
  intro Hm. induction n as [|n IH]; simpl.
  - apply state_free_ret.
  - apply state_free_bind; [exact Hm|]. intro a.
    apply state_free_bind; [exact IH|]. intro l. apply state_free_ret.
Qed.

Lemma state_free_for_collect {G A B : Type} (f : A -> M G B) xs :
  (forall x, state_free (f x)) -> state_free (for_collect f xs).
Proof.
  intro Hf. induction xs as [|x xs IH]; simpl.
  - apply state_free_ret.
  - apply state_free_bind; [apply Hf|]. intro b.
    apply state_free_bind; [exact IH|]. intro l. apply state_free_ret.
Qed.

(** ** numpy helpers *)


Lemma cumsum_from_length acc l : length (cumsum_from acc l) = length l.
Proof.
  revert acc. induction l as [|x l IH]; intro acc; simpl;
    [reflexivity | now rewrite IH].
Qed.

Lemma cumsum_length l : length (cumsum l) = length l.
Proof. destruct l; simpl; [reflexivity | now rewrite cumsum_from_length]. Qed.

Lemma cumsum_from_nonneg acc l :
  0 <= acc -> Forall (Qle 0) l -> Forall (Qle 0) (cumsum_from acc l).
Proof.
  revert acc. induction l as [|x l IH]; intros acc Ha Hl; simpl;
    [constructor|].
  inversion Hl; subst. constructor; [lra | apply IH; [lra | assumption]].
Qed.

Lemma cumsum_nonneg l : Forall (Qle 0) l -> Forall (Qle 0) (cumsum l).
Proof.
  destruct l as [|x l]; intro H; simpl; [constructor|].
  inversion H; subst. constructor; [assumption|].
  now apply cumsum_from_nonneg.
Qed.

Lemma cumsum_from_pos acc l :
  0 < acc -> Forall (Qlt 0) l -> Forall (Qlt 0) (cumsum_from acc l).
Proof.
  revert acc. induction l as [|x l IH]; intros acc Ha Hl; simpl;
    [constructor|].
  inversion Hl; subst. constructor; [lra | apply IH; [lra | assumption]].
Qed.

Lemma cumsum_pos l : Forall (Qlt 0) l -> Forall (Qlt 0) (cumsum l).
Proof.
  destruct l as [|x l]; intro H; simpl; [constructor|].
  inversion H; subst. constructor; [assumption|].
  now apply cumsum_from_pos.
Qed.

Lemma np_div_pos a b : 0 < b -> np_div a b = Some (a / b).
Proof.
  intro H. unfold np_div.
  destruct (Qeq_bool b 0) eqn:E; [|reflexivity]. qprop. exfalso. lra.
Qed.

Lemma np_divide_length xs ys :
  length xs = length ys -> length (np_divide xs ys) = length xs.
Proof.
  revert ys. induction xs as [|x xs IH]; intros [|y ys] H; simpl in *;
    try reflexivity; try discriminate.
  rewrite IH; [reflexivity | now inversion H].
Qed.

Lemma np_divide_nonneg xs ys :
  Forall (Qle 0) xs -> Forall (Qlt 0) ys ->
  Forall nonneg_finite (np_divide xs ys).
Proof.
  revert ys. induction xs as [|x xs IH]; intros [|y ys] Hx Hy; simpl;
    try constructor.
  - inversion Hx; inversion Hy; subst.
    exists (x / y). split; [now apply np_div_pos | now apply Qdiv_nonneg].
  - inversion Hx; inversion Hy; subst. now apply IH.
Qed.





(** ** The year loop *)

Section ProjectorFacts.

Variable RNG : Type.
Variable normal : Q -> Q -> RNG -> Q * RNG.
Variable pow07 : Q -> Q.
Variable sqrt : Q -> Q.
Variables revenue cogs non_marketing_opex total_marketing_spend : Q.
Variables tax_rate invested_capital : Q.
Variables marketing_growth capital_growth : Q.
Variables n_years n_simulations : nat.
Variable base_effectiveness : Q.
Variable removal_scenarios : list Q.

Local Abbreviation body :=
  (year_body RNG normal pow07 cogs non_marketing_opex total_marketing_spend
     tax_rate marketing_growth capital_growth n_years base_effectiveness).
Local Abbreviation years_run :=
  (run_years RNG normal pow07 revenue cogs non_marketing_opex
     total_marketing_spend tax_rate invested_capital marketing_growth
     capital_growth n_years base_effectiveness).
Local Abbreviation one_trial :=
  (trial RNG normal pow07 revenue cogs non_marketing_opex
     total_marketing_spend tax_rate invested_capital marketing_growth
     capital_growth n_years base_effectiveness).
Local Abbreviation one_scenario :=
  (scenario RNG normal pow07 sqrt revenue cogs non_marketing_opex
     total_marketing_spend tax_rate invested_capital marketing_growth
     capital_growth n_years n_simulations base_effectiveness).
Local Abbreviation simulation :=
  (simulate_multi_year_cumulative_roic RNG normal pow07 sqrt revenue cogs
     non_marketing_opex total_marketing_spend tax_rate invested_capital
     marketing_growth capital_growth n_years n_simulations
     base_effectiveness removal_scenarios).
Local Abbreviation spend := (marketing_update marketing_growth base_effectiveness).
Local Abbreviation nopat := (nopat_of cogs non_marketing_opex tax_rate).

Lemma current_roic_of_total n c : exists q, current_roic_of n c = Ok q.
Proof.
  unfold current_roic_of. destruct (Qltb 0 c) eqn:E; [|now exists 0].
  qprop. rewrite py_div_ok by lra. now eexists.
Qed.

Lemma nopat_of_nonneg r m : 0 <= nopat r m.
Proof. apply pymax_lb. Qed.

(** What one iteration leaves behind, whatever the year. *)
Lemma year_body_records removal_pct year st g st' g' :
  body removal_pct year st g = Ok (st', g') ->
  current_marketing st' = spend removal_pct year st
  /\ yearly_nopat st'
     = yearly_nopat st
       ++ [nopat (current_revenue st) (spend removal_pct year st)]
  /\ yearly_capital st' = yearly_capital st ++ [current_capital st].
Proof.
  unfold year_body. intro H.
  apply bind_ok_inv in H. destruct H as (roic & g1 & _ & H).
  destruct (year <? n_years - 1)%nat.
  - apply bind_ok_inv in H. destruct H as (ratio & g2 & _ & H).
    apply bind_ok_inv in H. destruct H as (growth & g3 & _ & H).
    inversion H; subst. simpl. now repeat split.
  - inversion H; subst. simpl. now repeat split.
Qed.

(** The carried state after a year that is not the last one. *)
Lemma year_body_carry removal_pct year st g st' g' :
  (year <? n_years - 1)%nat = true ->
  body removal_pct year st g = Ok (st', g') ->
  current_capital st' = current_capital st * (1 + capital_growth)
  /\ current_roic_of
       (nopat (current_revenue st) (spend removal_pct year st))
       (current_capital st)
     = Ok (prior_year_roic st').
Proof.
  unfold year_body. intros Hy H. rewrite Hy in H.
  apply bind_ok_inv in H. destruct H as (roic & g1 & H1 & H).
  apply bind_ok_inv in H. destruct H as (ratio & g2 & _ & H).
  apply bind_ok_inv in H. destruct H as (growth & g3 & _ & H).
  inversion H; subst. simpl. split; [reflexivity|].
  unfold lift in H1.
  destruct (current_roic_of _ _) as [q|e] eqn:E; [|discriminate].
  inversion H1; subst. reflexivity.
Qed.

(** The last year draws nothing and leaves revenue and capital alone. *)
Lemma year_body_last removal_pct year st g :
  (year <? n_years - 1)%nat = false ->
  exists st',
    body removal_pct year st g = Ok (st', g)
    /\ current_capital st' = current_capital st
    /\ current_revenue st' = current_revenue st.
Proof.
  unfold year_body. intro Hy. rewrite Hy.
  destruct (current_roic_of_total
              (nopat (current_revenue st) (spend removal_pct year st))
              (current_capital st)) as (q & E).
  eexists. split; [|split].
  - unfold bind, lift. rewrite E. reflexivity.
  - reflexivity.
  - reflexivity.
Qed.

Lemma year_body_total removal_pct year st g :
  ~ total_marketing_spend == 0 ->
  exists st' g', body removal_pct year st g = Ok (st', g').
Proof.
  intro Hm. destruct (year <? n_years - 1)%nat eqn:Hy.
  - unfold year_body. rewrite Hy.
    destruct (current_roic_of_total
                (nopat (current_revenue st) (spend removal_pct year st))
                (current_capital st)) as (q & E).
    unfold bind at 1. unfold lift at 1. rewrite E.
    unfold bind at 1. unfold lift at 1. rewrite py_div_ok by assumption.
    unfold bind, draw_normal, ret.
    destruct (normal _ _ g) as [growth g1]. now eexists; eexists.
  - destruct (year_body_last removal_pct year st g Hy) as (st' & H & _).
    now exists st', g.
Qed.

Lemma run_years_succ removal_pct k g :
  years_run removal_pct (S k) g
  = bind (years_run removal_pct k) (body removal_pct k) g.
Proof.
  unfold run_years. rewrite seq_S, for_each_app. simpl.
  unfold bind at 1 3.
  destruct (for_each _ (seq 0 k) _ g) as [[st g1]|e]; [|reflexivity].
  unfold bind, ret.
  now destruct (body removal_pct k st g1) as [[? ?]|?].
Qed.

Lemma run_years_total removal_pct k g :
  ~ total_marketing_spend == 0 ->
  exists st g', years_run removal_pct k g = Ok (st, g').
Proof.
  intro Hm. unfold run_years. apply for_each_total.
  intros year st h _. now apply year_body_total.
Qed.


(** *** What a trial records *)


Lemma year_body_sound removal_pct year st g st' g' :
  0 <= capital_growth ->
  records_sound st ->
  body removal_pct year st g = Ok (st', g') ->
  records_sound st'.
Proof.
  intros Hcg (Hn & Hc & Hcap) H.
  destruct (year_body_records _ _ _ _ _ _ H) as (_ & En & Ec).
  unfold records_sound. rewrite En, Ec. split; [|split].
  - apply Forall_app. split; [assumption|].
    constructor; [apply nopat_of_nonneg | constructor].
  - apply Forall_app. split; [assumption|]. now repeat constructor.
  - destruct (year <? n_years - 1)%nat eqn:Hy.
    + destruct (year_body_carry _ _ _ _ _ _ Hy H) as [-> _].
      apply Qmult_lt_0_compat; lra.
    + destruct (year_body_last removal_pct year st g Hy)
        as (st1 & H1 & E & _).
      rewrite H in H1. inversion H1; subst. now rewrite E.
Qed.

Lemma run_years_sound removal_pct k g st g' :
  0 < invested_capital -> 0 <= capital_growth ->
  years_run removal_pct k g = Ok (st, g') -> records_sound st.
Proof.
  intros Hic Hcg H. unfold run_years in H.
  eapply (for_each_invariant _ records_sound); [| |exact H].
  - intros year s h s' h' _ Hs Hb. now apply (year_body_sound _ _ _ _ _ _ Hcg Hs Hb).
  - unfold records_sound, initial_state. simpl.
    repeat split; [constructor | constructor | assumption].
Qed.

Lemma for_years_lengths removal_pct ys st g st' g' :
  for_each (body removal_pct) ys st g = Ok (st', g') ->
  length (yearly_nopat st') = (length (yearly_nopat st) + length ys)%nat
  /\ length (yearly_capital st')
     = (length (yearly_capital st) + length ys)%nat.
Proof.
  revert st g. induction ys as [|y ys IH]; intros st g H; simpl in H.
  - inversion H; subst. simpl. lia.
  - apply bind_ok_inv in H. destruct H as (st1 & g1 & H1 & H2).
    destruct (year_body_records _ _ _ _ _ _ H1) as (_ & En & Ec).
    destruct (IH _ _ H2) as [Ln Lc]. rewrite Ln, Lc, En, Ec.
    rewrite !length_app. simpl. lia.
Qed.

Lemma run_years_lengths removal_pct k g st g' :
  years_run removal_pct k g = Ok (st, g') ->
  length (yearly_nopat st) = k /\ length (yearly_capital st) = k.
Proof.
  intro H. unfold run_years in H.
  pose proof (for_years_lengths removal_pct _ _ _ _ _ H) as L.
  rewrite length_seq in L. exact L.
Qed.

Lemma trial_inv removal_pct g row g' :
  one_trial removal_pct g = Ok (row, g') ->
  exists st,
    years_run removal_pct n_years g = Ok (st, g')
    /\ row = np_divide (cumulative_nopats st) (cumulative_capitals st).
Proof.
  unfold trial. intro H.
  apply bind_ok_inv in H. destruct H as (st & g1 & H1 & H).
  inversion H; subst. now exists st.
Qed.

Lemma trial_row_sound removal_pct g row g' :
  0 < invested_capital -> 0 <= capital_growth ->
  one_trial removal_pct g = Ok (row, g') ->
  length row = n_years /\ Forall nonneg_finite row.
Proof.
  intros Hic Hcg H. destruct (trial_inv _ _ _ _ H) as (st & Hr & ->).
  destruct (run_years_lengths _ _ _ _ _ Hr) as [Ln Lc].
  destruct (run_years_sound _ _ _ _ _ Hic Hcg Hr) as (Sn & Sc & _).
  unfold cumulative_nopats, cumulative_capitals. split.
  - rewrite np_divide_length; rewrite !cumsum_length; congruence.
  - apply np_divide_nonneg; [now apply cumsum_nonneg | now apply cumsum_pos].
Qed.

Lemma trial_total removal_pct g :
  ~ total_marketing_spend == 0 ->
  exists row g', one_trial removal_pct g = Ok (row, g').
Proof.
  intro Hm. unfold trial.
  destruct (run_years_total removal_pct n_years g Hm) as (st & g' & H).
  rewrite (bind_ok _ _ _ _ _ H).
  now eexists; eexists.
Qed.



Lemma scenario_inv removal_pct g v g' :
  one_scenario removal_pct g = Ok (v, g') ->
  exists rows,
    repeat_append n_simulations (one_trial removal_pct) g = Ok (rows, g')
    /\ v = (seq 1 n_years, mean_axis0 rows, std_axis0 sqrt rows).
Proof.
  unfold scenario. intro H.
  apply bind_ok_inv in H. destruct H as (rows & g1 & H1 & H).
  inversion H; subst. now exists rows.
Qed.

Lemma scenario_total removal_pct g :
  ~ total_marketing_spend == 0 ->
  exists v g', one_scenario removal_pct g = Ok (v, g').
Proof.
  intro Hm. unfold scenario.
  destruct (repeat_append_total (one_trial removal_pct) n_simulations
              (fun h => trial_total removal_pct h Hm) g) as (rows & g' & H).
  rewrite (bind_ok _ _ _ _ _ H). now eexists; eexists.
Qed.

Lemma simulation_total g :
  ~ total_marketing_spend == 0 ->
  exists res g', simulation g = Ok (res, g').
Proof.
  intro Hm. unfold simulate_multi_year_cumulative_roic.
  apply for_collect_total. intros r h. now apply scenario_total.
Qed.



(** *** A trial repeated once *)

Lemma map_nth_seq {A B : Type} (f : A -> B) (l : list A) (d : A) :
  map (fun j => f (nth j l d)) (seq 0 (length l)) = map f l.
Proof.
  induction l as [|x l IH]; [reflexivity|].
  simpl. f_equal. rewrite <- seq_shift, map_map. exact IH.
Qed.

Lemma mean_axis0_single row :
  mean_axis0 [row] = map (option_map (fun x => mean [x])) row.
Proof.
  unfold mean_axis0, column. simpl map.
  rewrite <- (map_nth_seq (option_map (fun x => mean [x])) row None).
  apply map_ext. intro j. now destruct (nth j row None).
Qed.

Lemma std_axis0_single row :
  std_axis0 sqrt [row] = map (option_map (fun x => std sqrt [x])) row.
Proof.
  unfold std_axis0, column. simpl map.
  rewrite <- (map_nth_seq (option_map (fun x => std sqrt [x])) row None).
  apply map_ext. intro j. now destruct (nth j row None).
Qed.

Lemma mean_single x : mean [x] == x.
Proof. unfold mean, sumQ. simpl. field. Qed.

Section StubbedRandomness.

(** The random source replaced by one that returns exactly the mean. *)
Hypothesis normal_is_mean :
  forall loc scale g, fst (normal loc scale g) = loc.

Lemma state_free_draw loc scale : state_free (draw_normal RNG normal loc scale).
Proof.
  intros g1 g2. unfold draw_normal, value, rmap. simpl.
  now rewrite !normal_is_mean.
Qed.

Lemma state_free_year_body removal_pct year st :
  state_free (body removal_pct year st).
Proof.
  unfold year_body. apply state_free_bind; [apply state_free_lift|].
  intro roic. destruct (year <? n_years - 1)%nat; [|apply state_free_ret].
  apply state_free_bind; [apply state_free_lift|]. intro ratio.
  apply state_free_bind; [apply state_free_draw|]. intro growth.
  apply state_free_ret.
Qed.

Lemma state_free_trial removal_pct : state_free (one_trial removal_pct).
Proof.
  unfold trial. apply state_free_bind.
  - unfold run_years. apply state_free_for_each.
    intros year st. apply state_free_year_body.
  - intro st. apply state_free_ret.
Qed.

(** Under the stub, what the simulation returns does not depend on the
    state the generator is in when the run starts. *)
Lemma stubbed_simulation_state_free : state_free simulation.
Proof.
  unfold simulate_multi_year_cumulative_roic.
  apply state_free_for_collect. intro r. unfold scenario.
  apply state_free_bind.
  - apply state_free_repeat_append, state_free_trial.
  - intro rows. apply state_free_ret.
Qed.

End StubbedRandomness.

Section SingleTrialDeviation.

Hypothesis sqrt_zero : forall q, q == 0 -> sqrt q == 0.

Lemma std_single x : std sqrt [x] == 0.
Proof.
  unfold std. apply sqrt_zero. unfold mean, sumQ. simpl. field.
Qed.

(** With one trial per scenario, positive invested capital and non-negative
    capital growth, every standard deviation returned is 0. *)
Lemma single_trial_std_zero g res g' :
  n_simulations = 1%nat ->
  0 < invested_capital -> 0 <= capital_growth ->
  simulation g = Ok (res, g') ->
  Forall (fun entry =>
            Forall (fun s => exists q, s = Some q /\ q == 0)
                   (std_roic_of entry)) res.
Proof.
  intros Hn Hic Hcg H. unfold simulate_multi_year_cumulative_roic in H.
  apply (for_collect_all _
           (fun r v => Forall (fun s => exists q, s = Some q /\ q == 0)
                              (snd v))) in H; [apply H|].
  clear H. intros r h v h' H.
  destruct (scenario_inv _ _ _ _ H) as (rows & Hrows & ->). simpl.
  apply (repeat_append_all _
           (fun row => length row = n_years /\ Forall nonneg_finite row))
    in Hrows; [|intros h1 row h2; apply trial_row_sound; assumption].
  destruct Hrows as [L F]. rewrite Hn in L.
  destruct rows as [|row [|? ?]]; try discriminate.
  rewrite std_axis0_single. apply Forall_map.
  inversion F as [|? ? [_ Frow] _]; subst.
  eapply Forall_impl; [|exact Frow].
  intros x (q & -> & _). simpl. eexists. split; [reflexivity|].
  apply std_single.
Qed.

End SingleTrialDeviation.

End ProjectorFacts.






(** C1 (evaluation of the code where the claim fails).  With invested
    capital 0 the cumulative-ROIC division of a one-year trial is executed
    on the denominator 0 and yields a non-finite value; with marketing
    spend 0 a two-year trial raises [ZeroDivisionError] in its first year,
    at the division by [total_marketing_spend]. *)
Theorem C1_division_by_zero_reached :
  forall (RNG : Type) (normal : Q -> Q -> RNG -> Q * RNG) (pow07 : Q -> Q)
         (g : RNG),
  (exists st,
     run_years RNG normal pow07 100 40 20 30 0.25 0 0.1 0.1 1 0.5 0 1 g
     = Ok (st, g)
     /\ cumulative_capitals st = [0]
     /\ trial RNG normal pow07 100 40 20 30 0.25 0 0.1 0.1 1 0.5 0 g
        = Ok ([None], g))
  /\ trial RNG normal pow07 100 40 20 0 0.25 70 0.1 0.1 2 0.5 0 g
     = Raise ZeroDivisionError.
Proof.
  intros. split.
  - eexists. split; [reflexivity|]. split; reflexivity.
  - reflexivity.
Qed.

(** C9 (evaluation of the code where the claim fails).  With invested
    capital 0, one year and one trial per scenario, no draw is made, so the
    run is the same under every random source; the standard deviation
    returned for each scenario is non-finite, not 0. *)
Theorem C9_std_not_zero_without_capital :
  forall (RNG : Type) (normal : Q -> Q -> RNG -> Q * RNG)
         (pow07 sqrt : Q -> Q) (g : RNG),
  simulate_multi_year_cumulative_roic RNG normal pow07 sqrt
    100 40 20 30 0.25 0 0.1 0.1 1 1 0.5 [0; 0.33; 0.66; 0.99] g
  = Ok ([(0, ([1%nat], [None], [None]));
         (0.33, ([1%nat], [None], [None]));
         (0.66, ([1%nat], [None], [None]));
         (0.99, ([1%nat], [None], [None]))], g).
Proof.
  intros. reflexivity.
Qed.

(** * Further properties of the code *)

(** ** Effective tax rate *)

Section EffectiveTaxRate.

Variables revenue cogs non_marketing_opex total_marketing_spend : Q.
Variable tax_rate : Q.

Local Abbreviation rate_at w :=
  (calculate_effective_tax_rate revenue cogs non_marketing_opex
     total_marketing_spend w tax_rate).
Local Abbreviation income_without_waste w :=
  (revenue - cogs - non_marketing_opex - total_marketing_spend * (1 - w)).
Local Abbreviation actual_income :=
  (revenue - cogs - non_marketing_opex - total_marketing_spend).

(** The value returned on the regular branch, in terms of the actual
    operating income. *)
Lemma effective_tax_rate_regular w :
  0 < income_without_waste w ->
  exists rate,
    rate_at w = Ok rate
    /\ rate == 1 - actual_income * (1 - tax_rate) / income_without_waste w.
Proof.
  intro H. eexists. split.
  - apply effective_tax_rate_general_value. exact H.
  - cbv zeta. field. lra.
Qed.


End EffectiveTaxRate.

(** X1. On the regular branch the returned rate is the one the comment of
    lines 30-31 asks for: applied to the waste-free operating income it
    leaves the NOPAT actually earned, i.e. the actual operating income
    taxed at the nominal rate. *)
Theorem effective_tax_rate_preserves_nopat :
  forall revenue cogs non_marketing_opex total_marketing_spend
         waste_percentage tax_rate,
  let true_operating_income :=
    revenue - cogs - non_marketing_opex
    - total_marketing_spend * (1 - waste_percentage) in
  let actual_operating_income :=
    revenue - cogs - non_marketing_opex - total_marketing_spend in
  0 < true_operating_income ->
  exists rate,
    calculate_effective_tax_rate revenue cogs non_marketing_opex
      total_marketing_spend waste_percentage tax_rate = Ok rate
    /\ true_operating_income * (1 - rate)
       == actual_operating_income * (1 - tax_rate).
Proof.
  intros until tax_rate. intros toi aoi H.
  destruct (effective_tax_rate_regular revenue cogs non_marketing_opex
              total_marketing_spend tax_rate waste_percentage H)
    as (rate & E & V).
  exists rate. split; [exact E|].
  rewrite V. subst toi aoi. field. lra.
Qed.

Lemma effective_tax_rate_preserves_nopat_witness :
  exists rate,
    calculate_effective_tax_rate 100 40 20 30 0.5 0.25 = Ok rate
    /\ (100 - 40 - 20 - 30 * (1 - 0.5)) * (1 - rate)
       == (100 - 40 - 20 - 30) * (1 - 0.25).
Proof.
  apply (effective_tax_rate_preserves_nopat 100 40 20 30 0.5 0.25).
  reflexivity.
Defined.








(** ** Loops that append, inverted *)





(** ** Single-year ROIC curve *)



(** X7. When the business is profitable before any removal (positive
    operating income and invested capital, non-negative marketing spend,
    effectiveness at most 1), the curve is a straight line: each value is
    the ROIC at no removal plus the removal fraction times
    [wasted spend * (1 - tax_rate) / invested_capital]. *)
Theorem roic_improvement_linear :
  forall revenue cogs non_marketing_opex total_marketing_spend
         e tax_rate invested_capital (removal_points : nat),
  0 <= total_marketing_spend ->
  e <= 1 ->
  0 < invested_capital ->
  0 < revenue - cogs - non_marketing_opex - total_marketing_spend ->
  exists roic_values,
    calculate_roic_improvement revenue cogs non_marketing_opex
      total_marketing_spend e tax_rate invested_capital removal_points
    = Ok (linspace01 removal_points, roic_values)
    /\ forall i, (i < removal_points)%nat ->
         nth i roic_values 0
         == (revenue - cogs - non_marketing_opex - total_marketing_spend)
            * (1 - tax_rate) / invested_capital
            + nth i (linspace01 removal_points) 0
              * (total_marketing_spend * (1 - e) * (1 - tax_rate)
                 / invested_capital).
Proof.
  intros until removal_points. intros Hm He Hic Hoi.
  eexists. split; [apply calculate_roic_improvement_value|].
  intros i Hi.
  rewrite (nth_map_default _ _ _ 0) by now rewrite linspace01_length.
  set (r := nth i (linspace01 removal_points) 0).
  assert (Hr : 0 <= r).
  { apply (linspace01_range removal_points). apply nth_In.
    now rewrite linspace01_length. }
  assert (Hw : 0 <= total_marketing_spend * (1 - e) * r).
  { apply Qmult_le_0_compat; [|exact Hr].
    apply Qmult_le_0_compat; lra. }
  unfold roic_of_marketing.
  destruct (Qle_bool _ 0 || Qle_bool invested_capital 0) eqn:G; qprop;
    try (exfalso; lra).
  field. lra.
Qed.

Lemma roic_improvement_linear_witness :
  exists roic_values,
    calculate_roic_improvement 100 40 20 30 0.5 0.25 70 3
    = Ok (linspace01 3, roic_values)
    /\ nth 2 roic_values 0 == 7.5 / 70 + 1 * (11.25 / 70).
Proof.
  destruct (roic_improvement_linear 100 40 20 30 0.5 0.25 70 3)
    as (vs & E & L); try discriminate; try reflexivity.
  exists vs. split; [exact E|]. rewrite (L 2%nat) by lia. reflexivity.
Defined.

(** X8. The curve is flat at 0 when invested capital is not positive, and
    also when revenue cannot even cover the effective part of the marketing
    spend (non-negative spend, effectiveness at most 1). *)
Theorem roic_improvement_all_zero :
  forall revenue cogs non_marketing_opex total_marketing_spend
         e tax_rate invested_capital (removal_points : nat),
  invested_capital <= 0
  \/ (0 <= total_marketing_spend /\ e <= 1
      /\ revenue - cogs - non_marketing_opex - total_marketing_spend * e
         <= 0) ->
  exists roic_values,
    calculate_roic_improvement revenue cogs non_marketing_opex
      total_marketing_spend e tax_rate invested_capital removal_points
    = Ok (linspace01 removal_points, roic_values)
    /\ length roic_values = removal_points
    /\ Forall (fun v => v = 0) roic_values.
Proof.
  intros until removal_points. intro H.
  eexists. split; [apply calculate_roic_improvement_value|].
  split; [now rewrite length_map, linspace01_length|].
  apply Forall_map, Forall_forall. intros r Hr.
  apply linspace01_range in Hr. unfold roic_of_marketing.
  destruct (Qle_bool _ 0 || Qle_bool invested_capital 0) eqn:G;
    [reflexivity|].
  exfalso. qprop. destruct H as [H|(Hm & He & H)]; [lra|].
  assert (total_marketing_spend * (1 - e) * r
          <= total_marketing_spend * (1 - e) * 1).
  { rewrite !(Qmult_comm (total_marketing_spend * (1 - e))).
    apply Qmult_le_compat_r; [lra|]. apply Qmult_le_0_compat; lra. }
  lra.
Qed.

Lemma roic_improvement_all_zero_witness :
  exists roic_values,
    calculate_roic_improvement 50 40 20 30 0.5 0.25 70 4
    = Ok (linspace01 4, roic_values)
    /\ Forall (fun v => v = 0) roic_values.
Proof.
  destruct (roic_improvement_all_zero 50 40 20 30 0.5 0.25 70 4)
    as (vs & E & _ & Z).
  - right. repeat split; discriminate.
  - now exists vs.
Defined.

(** ** Effectiveness scenarios *)

Lemma simulate_roic_improvement_scenarios_value
  revenue cogs non_marketing_opex total_marketing_spend tax_rate
  invested_capital removal_points :
  let curve e :=
    map (fun r =>
           roic_of_marketing revenue cogs non_marketing_opex
             (total_marketing_spend - total_marketing_spend * (1 - e) * r)
             tax_rate invested_capital)
        (linspace01 removal_points) in
  simulate_roic_improvement_scenarios revenue cogs non_marketing_opex
    total_marketing_spend tax_rate invested_capital removal_points
  = Ok [(0.25, (linspace01 removal_points, curve 0.25));
        (0.50, (linspace01 removal_points, curve 0.50));
        (0.75, (linspace01 removal_points, curve 0.75))].
Proof.
  unfold simulate_roic_improvement_scenarios, effectiveness_scenarios.
  simpl for_append. rewrite !calculate_roic_improvement_value.
  reflexivity.
Qed.

Lemma roic_of_marketing_more_waste
  revenue cogs non_marketing_opex total_marketing_spend tax_rate
  invested_capital e1 e2 r :
  0 <= total_marketing_spend -> tax_rate <= 1 -> 0 <= r -> e1 <= e2 ->
  roic_of_marketing revenue cogs non_marketing_opex
    (total_marketing_spend - total_marketing_spend * (1 - e2) * r)
    tax_rate invested_capital
  <= roic_of_marketing revenue cogs non_marketing_opex
       (total_marketing_spend - total_marketing_spend * (1 - e1) * r)
       tax_rate invested_capital.
Proof.
  intros Hm Ht Hr He. apply roic_of_marketing_antitone; [exact Ht|].
  assert (total_marketing_spend * (1 - e2) * r
          <= total_marketing_spend * (1 - e1) * r).
  { apply Qmult_le_compat_r; [|exact Hr].
    rewrite !(Qmult_comm total_marketing_spend).
    apply Qmult_le_compat_r; lra. }
  lra.
Qed.

(** X9. [simulate_roic_improvement_scenarios] never raises and returns one
    curve per effectiveness 0.25, 0.50, 0.75, in that order and over the
    same removal fractions.  With non-negative marketing spend and a tax
    rate of at most 1, the three curves start from the same ROIC and, at
    every removal fraction, a lower effectiveness gives a ROIC at least as
    high. *)
Theorem roic_improvement_scenarios_ordered :
  forall revenue cogs non_marketing_opex total_marketing_spend tax_rate
         invested_capital (removal_points : nat),
  exists roic25 roic50 roic75,
    simulate_roic_improvement_scenarios revenue cogs non_marketing_opex
      total_marketing_spend tax_rate invested_capital removal_points
    = Ok [(0.25, (linspace01 removal_points, roic25));
          (0.50, (linspace01 removal_points, roic50));
          (0.75, (linspace01 removal_points, roic75))]
    /\ length roic25 = removal_points
    /\ length roic50 = removal_points
    /\ length roic75 = removal_points
    /\ ((1 <= removal_points)%nat ->
        nth 0 roic25 0 == nth 0 roic50 0 /\ nth 0 roic50 0 == nth 0 roic75 0)
    /\ (0 <= total_marketing_spend -> tax_rate <= 1 ->
        forall i, (i < removal_points)%nat ->
          nth i roic75 0 <= nth i roic50 0 <= nth i roic25 0).
Proof.
  intros. do 3 eexists.
  split; [apply simulate_roic_improvement_scenarios_value|].
  rewrite !length_map, linspace01_length.
  do 3 (split; [reflexivity|]). split.
  - intro Hn.
    rewrite !(nth_map_default _ _ _ 0) by (rewrite linspace01_length; lia).
    pose proof (linspace01_first removal_points Hn) as F.
    assert (S0 : forall e,
              total_marketing_spend
              - total_marketing_spend * (1 - e)
                * nth 0 (linspace01 removal_points) 0
              == total_marketing_spend) by (intro e; rewrite F; ring).
    split.
    + rewrite (roic_of_marketing_compat _ _ _ _ _ _ _ (S0 0.25)).
      rewrite (roic_of_marketing_compat _ _ _ _ _ _ _ (S0 0.50)).
      reflexivity.
    + rewrite (roic_of_marketing_compat _ _ _ _ _ _ _ (S0 0.50)).
      rewrite (roic_of_marketing_compat _ _ _ _ _ _ _ (S0 0.75)).
      reflexivity.
  - intros Hm Ht i Hi.
    rewrite !(nth_map_default _ _ _ 0) by (rewrite linspace01_length; lia).
    assert (Hr : 0 <= nth i (linspace01 removal_points) 0).
    { apply (linspace01_range removal_points). apply nth_In.
      now rewrite linspace01_length. }
    split; apply roic_of_marketing_more_waste; try assumption; discriminate.
Qed.

Lemma roic_improvement_scenarios_ordered_witness :
  exists roic25 roic50 roic75,
    simulate_roic_improvement_scenarios 100 40 20 30 0.25 70 50
    = Ok [(0.25, (linspace01 50, roic25));
          (0.50, (linspace01 50, roic50));
          (0.75, (linspace01 50, roic75))]
    /\ nth 0 roic25 0 == nth 0 roic50 0
    /\ nth 49 roic75 0 <= nth 49 roic50 0 <= nth 49 roic25 0.
Proof.
  destruct (roic_improvement_scenarios_ordered 100 40 20 30 0.25 70 50)
    as (a & b & c & E & _ & _ & _ & S & O).
  exists a, b, c. split; [exact E|]. split.
  - apply S. lia.
  - apply O; [discriminate | discriminate | lia].
Defined.

(** ** Multi-year projector *)

Section ProjectorBehaviour.

Variable RNG : Type.
Variable normal : Q -> Q -> RNG -> Q * RNG.
Variable pow07 : Q -> Q.
Variable sqrt : Q -> Q.
Variables revenue cogs non_marketing_opex total_marketing_spend : Q.
Variables tax_rate invested_capital : Q.
Variables marketing_growth capital_growth : Q.
Variables n_years n_simulations : nat.
Variable base_effectiveness : Q.
Variable removal_scenarios : list Q.

Local Abbreviation body :=
  (year_body RNG normal pow07 cogs non_marketing_opex total_marketing_spend
     tax_rate marketing_growth capital_growth n_years base_effectiveness).
Local Abbreviation years_run :=
  (run_years RNG normal pow07 revenue cogs non_marketing_opex
     total_marketing_spend tax_rate invested_capital marketing_growth
     capital_growth n_years base_effectiveness).
Local Abbreviation one_trial :=
  (trial RNG normal pow07 revenue cogs non_marketing_opex
     total_marketing_spend tax_rate invested_capital marketing_growth
     capital_growth n_years base_effectiveness).
Local Abbreviation one_scenario :=
  (scenario RNG normal pow07 sqrt revenue cogs non_marketing_opex
     total_marketing_spend tax_rate invested_capital marketing_growth
     capital_growth n_years n_simulations base_effectiveness).
Local Abbreviation simulation :=
  (simulate_multi_year_cumulative_roic RNG normal pow07 sqrt revenue cogs
     non_marketing_opex total_marketing_spend tax_rate invested_capital
     marketing_growth capital_growth n_years n_simulations
     base_effectiveness removal_scenarios).
Local Abbreviation start :=
  (initial_state revenue total_marketing_spend invested_capital).

(** *** When the projector raises *)

Lemma run_years_zero removal_pct g : years_run removal_pct 0 g = Ok (start, g).
Proof. reflexivity. Qed.






(** *** Shape of the result *)

Lemma trial_row_length removal_pct g row g' :
  one_trial removal_pct g = Ok (row, g') -> length row = n_years.
Proof.
  intro H. apply trial_inv in H as (st & Hr & ->).
  apply run_years_lengths in Hr as [Ln Lc].
  unfold cumulative_nopats, cumulative_capitals.
  rewrite np_divide_length; rewrite !cumsum_length; congruence.
Qed.

(** X11. Whenever the projector returns, the result has one entry per
    removal scenario, in the order given; each entry lists the years
    1..n_years and, with at least one trial, carries exactly [n_years]
    means and [n_years] standard deviations. *)
Theorem simulation_result_shape :
  forall g res g',
  simulate_multi_year_cumulative_roic RNG normal pow07 sqrt revenue cogs
    non_marketing_opex total_marketing_spend tax_rate invested_capital
    marketing_growth capital_growth n_years n_simulations
    base_effectiveness removal_scenarios g
  = Ok (res, g') ->
  map fst res = removal_scenarios
  /\ Forall (fun entry =>
               years_of entry = seq 1 n_years
               /\ ((1 <= n_simulations)%nat ->
                   length (mean_roic_of entry) = n_years
                   /\ length (std_roic_of entry) = n_years)) res.
Proof.
  intros g res g' H. unfold simulate_multi_year_cumulative_roic in H.
  apply (for_collect_all _
           (fun r v =>
              fst (fst v) = seq 1 n_years
              /\ ((1 <= n_simulations)%nat ->
                  length (snd (fst v)) = n_years
                  /\ length (snd v) = n_years))) in H; [exact H|].
  clear H. intros r h v h' H.
  apply scenario_inv in H as (rows & Hrows & ->).
  simpl. split; [reflexivity|]. intro Hn.
  apply (repeat_append_all _ (fun row => length row = n_years)) in Hrows;
    [|intros h1 row h2; apply trial_row_length].
  destruct Hrows as [L F].
  destruct rows as [|row rows]; [simpl in L; lia|].
  inversion F; subst.
  unfold mean_axis0, std_axis0. rewrite !length_map, !length_seq.
  now split.
Qed.

(** *** Capital compounds deterministically *)

Lemma Qpower_succ q k : q ^ Z.of_nat (S k) == q ^ Z.of_nat k * q.
Proof.
  rewrite Nat2Z.inj_succ. unfold Z.succ.
  rewrite Qpower_plus' by lia. reflexivity.
Qed.

Lemma run_years_capital removal_pct k g st g' :
  (k <= n_years)%nat ->
  years_run removal_pct k g = Ok (st, g') ->
  capital_compounded invested_capital capital_growth n_years k st.
Proof.
  revert st g'. induction k as [|k IH]; intros st g' Hk H.
  - rewrite run_years_zero in H. inversion H; subst.
    unfold capital_compounded. simpl.
    split; [reflexivity|]. split; [intros; lia|]. intros _. ring.
  - rewrite run_years_succ in H. apply bind_ok_inv in H.
    destruct H as (st0 & g0 & H0 & Hb).
    destruct (IH st0 g0 ltac:(lia) H0) as (L & N & C).
    pose proof Hb as Hrec. apply year_body_records in Hrec as (_ & _ & Ec).
    unfold capital_compounded. rewrite Ec, length_app, L. simpl.
    split; [lia|]. split.
    + intros j Hj. destruct (Nat.eq_dec j k) as [->|Hne].
      * rewrite app_nth2 by lia. rewrite L, Nat.sub_diag. simpl.
        apply C. lia.
      * rewrite app_nth1 by lia. apply N. lia.
    + intro Hle.
      assert (Hy : (k <? n_years - 1)%nat = true) by (apply Nat.ltb_lt; lia).
      apply (year_body_carry _ _ _ _ _ _ _ _ _ _ _ _ _ _ _ _ _ Hy) in Hb
        as [-> _].
      rewrite (C ltac:(lia)), (Qpower_succ (1 + capital_growth) k). ring.
Qed.

(** X12. Whatever is drawn, the capital recorded for year [j] (counted
    from 0) of a trial is the initial capital compounded [j] times at the
    capital growth rate. *)
Theorem recorded_capital_compounds :
  forall removal_pct g st g' j,
  run_years RNG normal pow07 revenue cogs non_marketing_opex
    total_marketing_spend tax_rate invested_capital marketing_growth
    capital_growth n_years base_effectiveness removal_pct n_years g
  = Ok (st, g') ->
  (j < n_years)%nat ->
  length (yearly_capital st) = n_years
  /\ nth j (yearly_capital st) 0
     == invested_capital * (1 + capital_growth) ^ Z.of_nat j.
Proof.
  intros removal_pct g st g' j H Hj.
  destruct (run_years_capital removal_pct n_years g st g' (Nat.le_refl _) H)
    as (L & N & _).
  split; [exact L | now apply N].
Qed.

(** *** Revenue *)

Lemma year_body_revenue removal_pct year st g st' g' :
  body removal_pct year st g = Ok (st', g') ->
  exists growth,
    0 <= growth /\ current_revenue st' == current_revenue st * (1 + growth).
Proof.
  unfold year_body. intro H.
  apply bind_ok_inv in H. destruct H as (roic & g1 & _ & H).
  destruct (year <? n_years - 1)%nat.
  - apply bind_ok_inv in H. destruct H as (ratio & g2 & _ & H).
    apply bind_ok_inv in H. destruct H as (growth & g3 & _ & H).
    inversion H; subst. simpl.
    exists (pymax 0 growth). split; [apply pymax_lb | reflexivity].
  - inversion H; subst. simpl. exists 0. split; [lra | ring].
Qed.

(** X13. With a non-negative initial revenue, the revenue carried by a
    trial never falls from one year to the next, whatever is drawn: growth
    is clipped at 0 before it is applied. *)
Theorem revenue_never_decreases :
  forall removal_pct k g st g1 st' g2,
  0 <= revenue ->
  run_years RNG normal pow07 revenue cogs non_marketing_opex
    total_marketing_spend tax_rate invested_capital marketing_growth
    capital_growth n_years base_effectiveness removal_pct k g = Ok (st, g1) ->
  run_years RNG normal pow07 revenue cogs non_marketing_opex
    total_marketing_spend tax_rate invested_capital marketing_growth
    capital_growth n_years base_effectiveness removal_pct (S k) g
  = Ok (st', g2) ->
  revenue <= current_revenue st /\ current_revenue st <= current_revenue st'.
Proof.
  intros removal_pct k g st g1 st' g2 Hrev Hk Hnext.
  assert (Hinv : revenue <= current_revenue st).
  { unfold run_years in Hk.
    eapply (for_each_invariant _ (fun s => revenue <= current_revenue s));
      [| |exact Hk].
    - intros y s h s' h' _ Hs Hb.
      apply year_body_revenue in Hb as (growth & Hg & ->).
      assert (0 <= current_revenue s * growth)
        by (apply Qmult_le_0_compat; lra).
      lra.
    - simpl. lra. }
  split; [exact Hinv|].
  rewrite run_years_succ, (bind_ok _ _ _ _ _ Hk) in Hnext.
  apply year_body_revenue in Hnext as (growth & Hg & ->).
  assert (0 <= current_revenue st * growth)
    by (apply Qmult_le_0_compat; lra).
  lra.
Qed.

(** *** Marketing spend *)

Lemma pymax_pymin_clip lo hi x :
  lo <= hi -> lo <= pymax lo (pymin hi x) <= hi.
Proof.
  intro H. split; [apply pymax_lb|].
  unfold pymax. destruct (Qltb lo (pymin hi x)); [apply pymin_ub | exact H].
Qed.

Lemma marketing_update_later removal_pct year st :
  year <> 0%nat ->
  0 <= current_marketing st ->
  0 <= base_effectiveness <= 1 ->
  0 <= removal_pct <= 1 ->
  0 <= marketing_growth ->
  0.9 * current_marketing st
  <= marketing_update marketing_growth base_effectiveness removal_pct year st
  <= (1.2 + marketing_growth) * current_marketing st.
Proof.
  intros Hy Hcm He Hr Hg. unfold marketing_update.
  destruct year as [|year]; [congruence|]. simpl Nat.eqb. cbv iota zeta.
  set (clip := pymax (-0.1)
                 (pymin 0.2 ((prior_year_roic st - 0.05) * roic_impact))).
  assert (Hc : -0.1 <= clip <= 0.2) by (apply pymax_pymin_clip; discriminate).
  set (ag := marketing_growth + clip).
  set (f := 1 - (1 - base_effectiveness) * removal_pct).
  assert (Hf : 0 <= f <= 1).
  { subst f.
    assert (0 <= (1 - base_effectiveness) * removal_pct)
      by (apply Qmult_le_0_compat; lra).
    assert ((1 - base_effectiveness) * removal_pct
            <= (1 - base_effectiveness) * 1).
    { rewrite !(Qmult_comm (1 - base_effectiveness)).
      apply Qmult_le_compat_r; lra. }
    lra. }
  assert (Hagf : -0.1 <= ag * f <= 0.2 + marketing_growth).
  { destruct (Qlt_le_dec ag 0) as [Hneg|Hpos].
    - assert (0 <= (- ag) * f) by (apply Qmult_le_0_compat; lra).
      assert ((- ag) * f <= (- ag) * 1).
      { rewrite !(Qmult_comm (- ag)). apply Qmult_le_compat_r; lra. }
      subst ag. lra.
    - assert (0 <= ag * f) by (apply Qmult_le_0_compat; lra).
      assert (ag * f <= ag * 1).
      { rewrite !(Qmult_comm ag). apply Qmult_le_compat_r; lra. }
      subst ag. lra. }
  assert (E : current_marketing st
              + (current_marketing st * ag
                 - current_marketing st * ag * (1 - base_effectiveness)
                   * removal_pct)
              == current_marketing st * (1 + ag * f)) by (subst f; ring).
  rewrite E.
  assert (0 <= current_marketing st * (ag * f + 0.1))
    by (apply Qmult_le_0_compat; lra).
  assert (0 <= current_marketing st * (0.2 + marketing_growth - ag * f))
    by (apply Qmult_le_0_compat; lra).
  lra.
Qed.

Lemma marketing_update_first removal_pct st :
  0 <= current_marketing st ->
  base_effectiveness <= 1 ->
  0 <= removal_pct <= 1 ->
  base_effectiveness * current_marketing st
  <= marketing_update marketing_growth base_effectiveness removal_pct 0 st
  <= current_marketing st.
Proof.
  intros Hcm He Hr. unfold marketing_update. simpl Nat.eqb. cbv iota zeta.
  assert (0 <= current_marketing st * (1 - base_effectiveness))
    by (apply Qmult_le_0_compat; lra).
  assert (0 <= current_marketing st * (1 - base_effectiveness) * removal_pct)
    by (apply Qmult_le_0_compat; lra).
  assert (current_marketing st * (1 - base_effectiveness) * removal_pct
          <= current_marketing st * (1 - base_effectiveness) * 1).
  { rewrite !(Qmult_comm (current_marketing st * (1 - base_effectiveness))).
    apply Qmult_le_compat_r; lra. }
  lra.
Qed.

(** X14. With non-negative marketing spend and growth and with
    effectiveness and removal fraction in [0, 1]: the first year leaves a
    marketing spend between the effective part and the whole of the initial
    spend; in every later year the spend stays non-negative and changes by
    a factor between 0.9 and [1.2 + marketing_growth]. *)
Theorem marketing_spend_bounds :
  forall removal_pct g,
  0 <= total_marketing_spend ->
  0 <= base_effectiveness <= 1 ->
  0 <= removal_pct <= 1 ->
  0 <= marketing_growth ->
  (forall st g1,
     run_years RNG normal pow07 revenue cogs non_marketing_opex
       total_marketing_spend tax_rate invested_capital marketing_growth
       capital_growth n_years base_effectiveness removal_pct 1 g
     = Ok (st, g1) ->
     base_effectiveness * total_marketing_spend <= current_marketing st
     /\ current_marketing st <= total_marketing_spend)
  /\ (forall k st g1 st' g2,
        (1 <= k)%nat ->
        run_years RNG normal pow07 revenue cogs non_marketing_opex
          total_marketing_spend tax_rate invested_capital marketing_growth
          capital_growth n_years base_effectiveness removal_pct k g
        = Ok (st, g1) ->
        run_years RNG normal pow07 revenue cogs non_marketing_opex
          total_marketing_spend tax_rate invested_capital marketing_growth
          capital_growth n_years base_effectiveness removal_pct (S k) g
        = Ok (st', g2) ->
        0 <= current_marketing st
        /\ 0.9 * current_marketing st <= current_marketing st'
        /\ current_marketing st'
           <= (1.2 + marketing_growth) * current_marketing st).
Proof.
  intros removal_pct g Hm He Hr Hg.
  assert (First : forall st g1, years_run removal_pct 1 g = Ok (st, g1) ->
            base_effectiveness * total_marketing_spend <= current_marketing st
            /\ current_marketing st <= total_marketing_spend).
  { intros st g1 H. rewrite run_years_succ in H. unfold bind in H.
    rewrite run_years_zero in H. apply year_body_records in H as (-> & _).
    apply (marketing_update_first removal_pct start); simpl; lra. }
  assert (Nonneg : forall k st g1, (1 <= k)%nat ->
            years_run removal_pct k g = Ok (st, g1) ->
            0 <= current_marketing st).
  { induction k as [|k IH]; intros st g1 Hk H; [lia|].
    destruct k as [|k].
    - apply First in H. destruct H as [H _].
      assert (0 <= base_effectiveness * total_marketing_spend)
        by (apply Qmult_le_0_compat; lra).
      lra.
    - rewrite run_years_succ in H. apply bind_ok_inv in H.
      destruct H as (st0 & g0 & H0 & Hb).
      apply IH in H0; [|lia].
      apply year_body_records in Hb as (-> & _).
      pose proof (marketing_update_later removal_pct (S k) st0
                    ltac:(lia) H0 He Hr Hg) as [L _].
      lra. }
  split; [exact First|].
  intros k st g1 st' g2 Hk H Hnext.
  pose proof (Nonneg k st g1 Hk H) as Hcm.
  split; [exact Hcm|].
  rewrite run_years_succ, (bind_ok _ _ _ _ _ H) in Hnext.
  apply year_body_records in Hnext as (-> & _).
  apply marketing_update_later; try assumption. lia.
Qed.

(** *** The first year carries no randomness *)







Section FirstYearBand.

Hypothesis sqrt_zero : forall q, q == 0 -> sqrt q == 0.



End FirstYearBand.

End ProjectorBehaviour.

(** *** How many draws a run makes *)

Section CountingDraws.

Variable sample : Q -> Q -> nat -> Q.
Variable pow07 : Q -> Q.
Variable sqrt : Q -> Q.
Variables revenue cogs non_marketing_opex total_marketing_spend : Q.
Variables tax_rate invested_capital : Q.
Variables marketing_growth capital_growth : Q.
Variables n_years n_simulations : nat.
Variable base_effectiveness : Q.

Local Abbreviation counted_trial :=
  (trial nat (counting_source sample) pow07 revenue cogs non_marketing_opex
     total_marketing_spend tax_rate invested_capital marketing_growth
     capital_growth n_years base_effectiveness).

Lemma lift_ok_inv {G A : Type} (r : result A) (g : G) a g' :
  lift r g = Ok (a, g') -> r = Ok a /\ g' = g.
Proof.
  unfold lift. destruct r as [x|e]; [|discriminate].
  intro H. inversion H. now subst.
Qed.

Lemma year_body_draws removal_pct year st g st' g' :
  year_body nat (counting_source sample) pow07 cogs non_marketing_opex
    total_marketing_spend tax_rate marketing_growth capital_growth n_years
    base_effectiveness removal_pct year st g = Ok (st', g') ->
  g' = if (year <? n_years - 1)%nat then S g else g.
Proof.
  unfold year_body. intro H.
  apply bind_ok_inv in H. destruct H as (roic & g1 & H1 & H).
  apply lift_ok_inv in H1 as [_ ->].
  destruct (year <? n_years - 1)%nat.
  - apply bind_ok_inv in H. destruct H as (ratio & g2 & H2 & H).
    apply lift_ok_inv in H2 as [_ ->].
    apply bind_ok_inv in H. destruct H as (growth & g3 & H3 & H).
    unfold draw_normal, counting_source in H3. inversion H3; subst.
    inversion H. reflexivity.
  - inversion H. reflexivity.
Qed.

Lemma run_years_draws removal_pct k g st g' :
  run_years nat (counting_source sample) pow07 revenue cogs
    non_marketing_opex total_marketing_spend tax_rate invested_capital
    marketing_growth capital_growth n_years base_effectiveness removal_pct
    k g = Ok (st, g') ->
  g' = (g + Nat.min k (n_years - 1))%nat.
Proof.
  revert st g'. induction k as [|k IH]; intros st g' H.
  - inversion H. lia.
  - rewrite run_years_succ in H. apply bind_ok_inv in H.
    destruct H as (st0 & g0 & H0 & Hb).
    apply IH in H0. apply year_body_draws in Hb. subst g0 g'.
    destruct (k <? n_years - 1)%nat eqn:E.
    + apply Nat.ltb_lt in E. lia.
    + apply Nat.ltb_ge in E. lia.
Qed.

Lemma trial_draws removal_pct g row g' :
  counted_trial removal_pct g = Ok (row, g') ->
  g' = (g + (n_years - 1))%nat.
Proof.
  intro H. apply trial_inv in H as (st & Hr & _).
  apply run_years_draws in Hr. lia.
Qed.

Lemma repeat_append_draws {A : Type} (m : M nat A) (c n : nat) :
  (forall g a g', m g = Ok (a, g') -> g' = (g + c)%nat) ->
  forall g l g', repeat_append n m g = Ok (l, g') -> g' = (g + n * c)%nat.
Proof.
  intro Hm. induction n as [|n IH]; intros g l g' H; simpl in H.
  - inversion H. lia.
  - apply bind_ok_inv in H. destruct H as (a & g1 & H1 & H).
    apply bind_ok_inv in H. destruct H as (l1 & g2 & H2 & H).
    inversion H; subst. apply Hm in H1. apply IH in H2. lia.
Qed.

Lemma for_collect_draws {A B : Type} (f : A -> M nat B) (c : nat) xs :
  (forall x g b g', f x g = Ok (b, g') -> g' = (g + c)%nat) ->
  forall g l g', for_collect f xs g = Ok (l, g') ->
    g' = (g + length xs * c)%nat.
Proof.
  intro Hf. induction xs as [|x xs IH]; intros g l g' H; simpl in H.
  - inversion H. simpl. lia.
  - apply bind_ok_inv in H. destruct H as (b & g1 & H1 & H).
    apply bind_ok_inv in H. destruct H as (l1 & g2 & H2 & H).
    inversion H; subst. apply Hf in H1. apply IH in H2. simpl. lia.
Qed.

(** X16. A run that returns makes exactly one draw per trial and per year
    but the last: with a generator that counts its draws, the count grows
    by [scenarios * n_simulations * (n_years - 1)], whatever values are
    drawn. *)
Theorem simulation_draw_count :
  forall removal_scenarios g res g',
  simulate_multi_year_cumulative_roic nat (counting_source sample) pow07
    sqrt revenue cogs non_marketing_opex total_marketing_spend tax_rate
    invested_capital marketing_growth capital_growth n_years n_simulations
    base_effectiveness removal_scenarios g
  = Ok (res, g') ->
  g' = (g + length removal_scenarios * (n_simulations * (n_years - 1)))%nat.
Proof.
  intros removal_scenarios g res g' H.
  unfold simulate_multi_year_cumulative_roic in H.
  apply (for_collect_draws _ (n_simulations * (n_years - 1))) in H;
    [exact H|].
  clear. intros r g v g' H. unfold scenario in H.
  apply bind_ok_inv in H. destruct H as (rows & g1 & H1 & H).
  inversion H; subst.
  apply (repeat_append_draws _ (n_years - 1)) in H1; [exact H1|].
  intros h row h'. apply trial_draws.
Qed.

End CountingDraws.

(** *** Concrete runs *)



Lemma simulation_result_shape_witness :
  exists res g',
    simulate_multi_year_cumulative_roic nat mean_source pow07_tangent
      sqrt_floor 100 40 20 30 0.25 70 0.1 0.1 5 100 0.5
      [0; 0.33; 0.66; 0.99] 0%nat
    = Ok (res, g')
    /\ map fst res = [0; 0.33; 0.66; 0.99].
Proof.
  destruct (simulation_total nat mean_source pow07_tangent sqrt_floor
              100 40 20 30 0.25 70 0.1 0.1 5 100 0.5 [0; 0.33; 0.66; 0.99]
              0%nat) as (res & g' & E); [discriminate|].
  exists res, g'. split; [exact E|].
  exact (proj1 (simulation_result_shape _ _ _ _ _ _ _ _ _ _ _ _ _ _ _ _ _ _
                  _ E)).
Defined.

Lemma recorded_capital_compounds_witness :
  exists st g',
    run_years nat mean_source pow07_tangent 100 40 20 30 0.25 70 0.1 0.1 5
      0.5 0.33 5 0%nat = Ok (st, g')
    /\ nth 2 (yearly_capital st) 0 == 70 * (1 + 0.1) ^ 2.
Proof.
  destruct (run_years_total nat mean_source pow07_tangent
              100 40 20 30 0.25 70 0.1 0.1 5 0.5 0.33 5 0%nat)
    as (st & g' & E); [discriminate|].
  exists st, g'. split; [exact E|].
  refine (proj2 (recorded_capital_compounds _ _ _ _ _ _ _ _ _ _ _ _ _ _ _ _
                   _ 2%nat E _)).
  lia.
Defined.

Lemma revenue_never_decreases_witness :
  exists st st' g1 g2,
    run_years nat mean_source pow07_tangent 100 40 20 30 0.25 70 0.1 0.1 5
      0.5 0.33 3 0%nat = Ok (st, g1)
    /\ run_years nat mean_source pow07_tangent 100 40 20 30 0.25 70 0.1 0.1 5
         0.5 0.33 4 0%nat = Ok (st', g2)
    /\ current_revenue st <= current_revenue st'.
Proof.
  destruct (run_years_total nat mean_source pow07_tangent
              100 40 20 30 0.25 70 0.1 0.1 5 0.5 0.33 3 0%nat)
    as (st & g1 & E1); [discriminate|].
  destruct (run_years_total nat mean_source pow07_tangent
              100 40 20 30 0.25 70 0.1 0.1 5 0.5 0.33 4 0%nat)
    as (st' & g2 & E2); [discriminate|].
  exists st, st', g1, g2. split; [exact E1|]. split; [exact E2|].
  refine (proj2 (revenue_never_decreases _ _ _ _ _ _ _ _ _ _ _ _ _ _ _ _ _ _
                   _ _ _ E1 E2)).
  discriminate.
Defined.

Lemma marketing_spend_bounds_witness :
  exists st st' g1 g2,
    run_years nat mean_source pow07_tangent 100 40 20 30 0.25 70 0.1 0.1 5
      0.5 0.33 3 0%nat = Ok (st, g1)
    /\ run_years nat mean_source pow07_tangent 100 40 20 30 0.25 70 0.1 0.1 5
         0.5 0.33 4 0%nat = Ok (st', g2)
    /\ 0.9 * current_marketing st <= current_marketing st'
    /\ current_marketing st' <= (1.2 + 0.1) * current_marketing st.
Proof.
  destruct (run_years_total nat mean_source pow07_tangent
              100 40 20 30 0.25 70 0.1 0.1 5 0.5 0.33 3 0%nat)
    as (st & g1 & E1); [discriminate|].
  destruct (run_years_total nat mean_source pow07_tangent
              100 40 20 30 0.25 70 0.1 0.1 5 0.5 0.33 4 0%nat)
    as (st' & g2 & E2); [discriminate|].
  exists st, st', g1, g2. split; [exact E1|]. split; [exact E2|].
  destruct (marketing_spend_bounds nat mean_source pow07_tangent
              100 40 20 30 0.25 70 0.1 0.1 5 0.5 0.33 0%nat)
    as [_ Later]; try discriminate; try (split; discriminate).
  apply (Later 3%nat st g1 st' g2 ltac:(lia) E1 E2).
Defined.


Lemma simulation_draw_count_witness :
  exists res g',
    simulate_multi_year_cumulative_roic nat
      (counting_source (fun loc _ _ => loc)) pow07_tangent sqrt_floor
      100 40 20 30 0.25 70 0.1 0.1 5 100 0.5 [0; 0.33; 0.66; 0.99] 0%nat
    = Ok (res, g')
    /\ g' = 1600%nat.
Proof.
  destruct (simulation_total nat (counting_source (fun loc _ _ => loc))
              pow07_tangent sqrt_floor 100 40 20 30 0.25 70 0.1 0.1 5 100
              0.5 [0; 0.33; 0.66; 0.99] 0%nat) as (res & g' & E);
    [discriminate|].
  exists res, g'. split; [exact E|].
  exact (simulation_draw_count _ _ _ _ _ _ _ _ _ _ _ _ _ _ _ _ _ _ E).
Defined.
